(** * ErriezDHT22: the DHT22 (AM2302/AM2303) single-wire driver

    A shallow embedding of [src/ErriezDHT22.cpp].  The object's fields are a
    record, every member function is a function on that record and on the
    outside world (the data line, the clock, the pin registers), and the
    fixed-width integers of the C++ code are [Z] with their wrap-around
    written out. *)

From Stdlib Require Import ZArith Lia Bool List.
From stdpp Require Import base list.
Import ListNotations.

Local Open Scope Z_scope.

(** ** Fixed-width integers *)

Module Int.

(** [uint8_t]: conversion reduces modulo 2^8. *)
Definition to_uint8 (z : Z) : Z := z mod 256.

(** [uint32_t] / [unsigned long] on the supported boards. *)
Definition to_uint32 (z : Z) : Z := z mod 2 ^ 32.

(** [int16_t]: conversion keeps the low 16 bits, read as two's complement. *)
Definition to_int16 (z : Z) : Z := (z + 32768) mod 65536 - 32768.

Definition is_uint8 (z : Z) : Prop := 0 <= z < 256.
Definition is_int16 (z : Z) : Prop := -32768 <= z <= 32767.

(** [~0] stored in an [int16_t]. *)
Definition invalid : Z := to_int16 (Z.lnot 0).

End Int.

Import Int.

(** ** The world outside the driver

    [line] is the level that the k-th [digitalRead] of the data pin sees
    (true is HIGH); [polls] counts the reads made so far.  [micros] is the
    running time in microseconds, [pinMode] and [pinOut] are what the driver
    last wrote to the pin, [irq] says whether interrupts are enabled. *)

Inductive PinMode := INPUT_PULLUP | OUTPUT.

Record World := mkWorld {
  micros : Z;
  line : nat -> bool;
  polls : nat;
  pinMode : PinMode;
  pinOut : bool;
  irq : bool
}.

Definition HIGH : bool := true.
Definition LOW : bool := false.

Definition millis (w : World) : Z := to_uint32 (micros w / 1000).

Definition delay (ms : Z) (w : World) : World :=
  mkWorld (micros w + 1000 * ms) (line w) (polls w) (pinMode w) (pinOut w) (irq w).

Definition delayMicroseconds (us : Z) (w : World) : World :=
  mkWorld (micros w + us) (line w) (polls w) (pinMode w) (pinOut w) (irq w).

Definition setPinMode (m : PinMode) (w : World) : World :=
  mkWorld (micros w) (line w) (polls w) m (pinOut w) (irq w).

Definition digitalWrite (v : bool) (w : World) : World :=
  mkWorld (micros w) (line w) (polls w) (pinMode w) v (irq w).

Definition digitalRead (w : World) : bool * World :=
  (line w (polls w),
   mkWorld (micros w) (line w) (S (polls w)) (pinMode w) (pinOut w) (irq w)).

Definition noInterrupts (w : World) : World :=
  mkWorld (micros w) (line w) (polls w) (pinMode w) (pinOut w) false.

Definition interrupts (w : World) : World :=
  mkWorld (micros w) (line w) (polls w) (pinMode w) (pinOut w) true.

(** ** The object *)

Definition DHT22_MIN_READ_INTERVAL : Z := 2000.
Definition DHT22_NUM_DATA_BITS : nat := 5 * 8.

(** Modelled from the spec: the header [ErriezDHT22.h] that declares the
    fields used by [ErriezDHT22.cpp] is not among the sources (the header
    present, [DHT22.h], is that of an older class without retries and
    averaging).  The retry and sample counters are taken as [uint8_t]: that
    is the type of [begin]'s two parameters and of what
    [getNumRetriesLastConversion] returns, the averaging loops count with a
    [uint8_t], and the specification gives [retriesUsedLastRead() -> uint8].
    A sample buffer is [None] for a null pointer. *)
Record DHT22 := mkDHT22 {
  _lastMeasurementTimestamp : Z;
  _maxCycles : Z;
  cycles : list Z;
  _data : list Z;
  _statusLastMeasurement : bool;
  _pin : Z;
  _maxReadRetries : Z;
  _numReadRetries : Z;
  _numSamples : Z;
  _temperatureSamples : option (list Z);
  _temperatureSampleIndex : Z;
  _numTemperatureSamples : Z;
  _humiditySamples : option (list Z);
  _humiditySampleIndex : Z;
  _numHumiditySamples : Z
}.

Definition set_timestamp (t : Z) (s : DHT22) : DHT22 :=
  mkDHT22 t (_maxCycles s) (cycles s) (_data s) (_statusLastMeasurement s)
    (_pin s) (_maxReadRetries s) (_numReadRetries s) (_numSamples s)
    (_temperatureSamples s) (_temperatureSampleIndex s) (_numTemperatureSamples s)
    (_humiditySamples s) (_humiditySampleIndex s) (_numHumiditySamples s).

Definition set_status (b : bool) (s : DHT22) : DHT22 :=
  mkDHT22 (_lastMeasurementTimestamp s) (_maxCycles s) (cycles s) (_data s) b
    (_pin s) (_maxReadRetries s) (_numReadRetries s) (_numSamples s)
    (_temperatureSamples s) (_temperatureSampleIndex s) (_numTemperatureSamples s)
    (_humiditySamples s) (_humiditySampleIndex s) (_numHumiditySamples s).

Definition set_retries (n : Z) (s : DHT22) : DHT22 :=
  mkDHT22 (_lastMeasurementTimestamp s) (_maxCycles s) (cycles s) (_data s)
    (_statusLastMeasurement s)
    (_pin s) (_maxReadRetries s) n (_numSamples s)
    (_temperatureSamples s) (_temperatureSampleIndex s) (_numTemperatureSamples s)
    (_humiditySamples s) (_humiditySampleIndex s) (_numHumiditySamples s).

Definition set_capture (cs ds : list Z) (s : DHT22) : DHT22 :=
  mkDHT22 (_lastMeasurementTimestamp s) (_maxCycles s) cs ds
    (_statusLastMeasurement s)
    (_pin s) (_maxReadRetries s) (_numReadRetries s) (_numSamples s)
    (_temperatureSamples s) (_temperatureSampleIndex s) (_numTemperatureSamples s)
    (_humiditySamples s) (_humiditySampleIndex s) (_numHumiditySamples s).

Definition set_temperatureAverage (buf : list Z) (idx n : Z) (s : DHT22) : DHT22 :=
  mkDHT22 (_lastMeasurementTimestamp s) (_maxCycles s) (cycles s) (_data s)
    (_statusLastMeasurement s)
    (_pin s) (_maxReadRetries s) (_numReadRetries s) (_numSamples s)
    (Some buf) idx n
    (_humiditySamples s) (_humiditySampleIndex s) (_numHumiditySamples s).

Definition set_humidityAverage (buf : list Z) (idx n : Z) (s : DHT22) : DHT22 :=
  mkDHT22 (_lastMeasurementTimestamp s) (_maxCycles s) (cycles s) (_data s)
    (_statusLastMeasurement s)
    (_pin s) (_maxReadRetries s) (_numReadRetries s) (_numSamples s)
    (_temperatureSamples s) (_temperatureSampleIndex s) (_numTemperatureSamples s)
    (Some buf) idx n.

(** ** DHT22::measurePulseWidth

    The loop polls the pin while it shows [level]; each turn tests
    [count++ >= _maxCycles].  [count] grows by one a turn from 0, so the
    test fires after at most [_maxCycles + 1] turns: the recursion is on the
    number of turns left, and the last branch of the [match] is never taken
    when it starts from [_maxCycles]. *)

Fixpoint pulseLoop (turns : nat) (level : bool) (maxCycles count : Z)
    (w : World) : Z * World :=
  let '(v, w1) := digitalRead w in
  if Bool.eqb v level then
    if maxCycles <=? count then (0, w1)
    else
      match turns with
      | S turns' => pulseLoop turns' level maxCycles (to_uint32 (count + 1)) w1
      | O => (0, w1)
      end
  else (count, w1).

Definition measurePulseWidth (level : bool) (s : DHT22) (w : World) : Z * World :=
  pulseLoop (Z.to_nat (_maxCycles s)) level (_maxCycles s) 0 w.

(** ** DHT22::generateStart *)

Definition startScript (w : World) : World :=
  let w := digitalWrite HIGH w in
  let w := delay 10 w in
  let w := setPinMode OUTPUT w in
  let w := digitalWrite LOW w in
  let w := delay 20 w in
  let w := setPinMode INPUT_PULLUP w in
  delayMicroseconds 30 w.

Definition generateStart (s : DHT22) (w : World) : bool * World :=
  let w := startScript w in
  let '(lowCycles, w) := measurePulseWidth LOW s w in
  if lowCycles =? 0 then (false, w)
  else
    let '(highCycles, w) := measurePulseWidth HIGH s w in
    if highCycles =? 0 then (false, w)
    else (true, w).

(** ** DHT22::readBytes

    The first loop stores 40 LOW/HIGH pairs of pulse widths in [cycles]; it
    assigns every one of the 80 entries, so the array afterwards is the list
    of the measurements in order.  The second loop turns each pair into a
    bit of [_data], and leaves with [false] at the first pair that holds
    a 0. *)

Fixpoint captureLoop (pairs : nat) (s : DHT22) (w : World) : list Z * World :=
  match pairs with
  | O => ([], w)
  | S pairs' =>
      let '(lowCycles, w) := measurePulseWidth LOW s w in
      let '(highCycles, w) := measurePulseWidth HIGH s w in
      let '(rest, w) := captureLoop pairs' s w in
      (lowCycles :: highCycles :: rest, w)
  end.

Definition storeBit (i : nat) (lowCycles highCycles : Z) (data : list Z) : list Z :=
  let byteIndex := (i / 8)%nat in
  let data := <[byteIndex := to_uint8 (Z.shiftl (data !!! byteIndex) 1)]> data in
  if highCycles >? lowCycles
  then <[byteIndex := Z.lor (data !!! byteIndex) 1]> data
  else data.

Fixpoint decodeLoop (n i : nat) (cs data : list Z) : bool * list Z :=
  match n with
  | O => (true, data)
  | S n' =>
      let lowCycles := cs !!! (2 * i)%nat in
      let highCycles := cs !!! (2 * i + 1)%nat in
      if (lowCycles =? 0) || (highCycles =? 0) then (false, data)
      else decodeLoop n' (S i) cs (storeBit i lowCycles highCycles data)
  end.

Definition readBytes (s : DHT22) (w : World) : bool * DHT22 * World :=
  let w := noInterrupts w in
  let '(cs, w) := captureLoop DHT22_NUM_DATA_BITS s w in
  let w := interrupts w in
  let '(ok, data) := decodeLoop DHT22_NUM_DATA_BITS 0 cs [0; 0; 0; 0; 0] in
  (ok, set_capture cs data s, w).

(** ** DHT22::readSensorData *)

(** [((_data[0] + _data[1] + _data[2] + _data[3]) & 0xFF) != _data[4]] *)
Definition parityError (d : list Z) : bool :=
  negb (Z.land (d !!! 0%nat + d !!! 1%nat + d !!! 2%nat + d !!! 3%nat) 255
        =? d !!! 4%nat).

(** One turn of the retry loop, up to the test that leaves it. *)
Definition attempt (s : DHT22) (w : World) : DHT22 * World :=
  let s := set_status true s in
  let '(started, w) := generateStart s w in
  let s := if started then s else set_status false s in
  let '(s, w) :=
    if _statusLastMeasurement s then
      let '(ok, s, w) := readBytes s w in
      (if ok then s else set_status false s, w)
    else (s, w) in
  let s :=
    if _statusLastMeasurement s && parityError (_data s)
    then set_status false s else s in
  (s, w).

(** The [for] loop from its condition on.  The counter is a [uint8_t], so
    [_numReadRetries++] wraps; the loop has no bound of its own, hence the
    fuel: [None] says that [fuel] turns were not enough to leave it. *)
Fixpoint retryLoop (fuel : nat) (s : DHT22) (w : World) : option (DHT22 * World) :=
  if _numReadRetries s <=? _maxReadRetries s then
    match fuel with
    | O => None
    | S fuel' =>
        let '(s, w) := attempt s w in
        if _statusLastMeasurement s then Some (s, w)
        else retryLoop fuel' (set_retries (to_uint8 (_numReadRetries s + 1)) s) w
    end
  else Some (s, w).

Definition readSensorData (fuel : nat) (s : DHT22) (w : World)
    : option (bool * DHT22 * World) :=
  let s := set_timestamp (millis w) s in
  match retryLoop fuel (set_retries 0 s) w with
  | Some (s, w) =>
      let s := set_retries (Z.min (_numReadRetries s) (_maxReadRetries s)) s in
      Some (_statusLastMeasurement s, s, w)
  | None => None
  end.

(** ** DHT22::available *)

Definition available (fuel : nat) (s : DHT22) (w : World)
    : option (bool * DHT22 * World) :=
  if to_uint32 (millis w - _lastMeasurementTimestamp s) <? 2000
  then Some (false, s, w)
  else readSensorData fuel s w.

(** ** DHT22::readTemperature and DHT22::readHumidity *)

(** [((_data[2] & 0x7F) << 8) | _data[3]], negated when [_data[2] & 0x80]. *)
Definition decodeTemperature (d : list Z) : Z :=
  let temperature :=
    to_int16 (Z.lor (Z.shiftl (Z.land (d !!! 2%nat) 127) 8) (d !!! 3%nat)) in
  if negb (Z.land (d !!! 2%nat) 128 =? 0)
  then to_int16 (temperature * -1)
  else temperature.

(** [(_data[0] << 8) | _data[1]] stored in an [int16_t]. *)
Definition decodeHumidity (d : list Z) : Z :=
  to_int16 (Z.lor (Z.shiftl (d !!! 0%nat) 8) (d !!! 1%nat)).

(** [for (uint8_t i = 0; i < n; i++) acc += samples[i];] with an [int16_t]
    accumulator, from index [i] on. *)
Fixpoint sumLoop (n i : nat) (samples : list Z) (acc : Z) : Z :=
  match n with
  | O => acc
  | S n' => sumLoop n' (S i) samples (to_int16 (acc + samples !!! i))
  end.

(** The body of the [if] that folds a value into a sample buffer: the new
    buffer, index and count, and the mean. *)
Definition average (numSamples : Z) (samples : list Z) (index num value : Z)
    : Z * (list Z * Z * Z) :=
  let samples := <[Z.to_nat (index mod numSamples) := value]> samples in
  let index := to_uint8 (index + 1) in
  let num := if num <? numSamples then to_uint8 (num + 1) else num in
  let total := sumLoop (Z.to_nat num) 0 samples 0 in
  (to_int16 (Z.quot total num), (samples, index, num)).

Definition readTemperature (s : DHT22) : Z * DHT22 :=
  if negb (_statusLastMeasurement s) then (invalid, s)
  else
    let temperature := decodeTemperature (_data s) in
    match _temperatureSamples s with
    | Some samples =>
        if negb (temperature =? Z.lnot 0) then
          let '(mean, (samples, index, num)) :=
            average (_numSamples s) samples (_temperatureSampleIndex s)
              (_numTemperatureSamples s) temperature in
          (mean, set_temperatureAverage samples index num s)
        else (temperature, s)
    | None => (temperature, s)
    end.

Definition readHumidity (s : DHT22) : Z * DHT22 :=
  if negb (_statusLastMeasurement s) then (invalid, s)
  else
    let humidity := decodeHumidity (_data s) in
    match _humiditySamples s with
    | Some samples =>
        if negb (humidity =? Z.lnot 0) then
          let '(mean, (samples, index, num)) :=
            average (_numSamples s) samples (_humiditySampleIndex s)
              (_numHumiditySamples s) humidity in
          (mean, set_humidityAverage samples index num s)
        else (humidity, s)
    | None => (humidity, s)
    end.

Definition getNumRetriesLastConversion (s : DHT22) : Z := _numReadRetries s.

(** ** The constructor and DHT22::begin

    The constructor leaves the fields it does not name as they are in the
    memory [mem] the object is built in.  [begin] gets from [malloc] two
    blocks ([None] when it fails) whose contents are whatever they are. *)

Definition construct (mem : DHT22) (pin cyclesPerMicrosecond : Z) : DHT22 :=
  mkDHT22 (_lastMeasurementTimestamp mem)
    (to_uint32 (1000 * cyclesPerMicrosecond))
    (cycles mem) (_data mem) (_statusLastMeasurement mem)
    (to_uint8 pin) (_maxReadRetries mem) 0 (_numSamples mem)
    (_temperatureSamples mem) 0 0
    (_humiditySamples mem) 0 0.

Definition begin (maxReadRetries numSamples : Z)
    (blockT blockH : option (list Z)) (s : DHT22) (w : World) : DHT22 * World :=
  let allocated := negb (to_uint8 numSamples =? 0) in
  (mkDHT22 (to_uint32 (- DHT22_MIN_READ_INTERVAL))
     (_maxCycles s) (cycles s) (_data s) (_statusLastMeasurement s) (_pin s)
     (to_uint8 maxReadRetries) (_numReadRetries s) (to_uint8 numSamples)
     (if allocated then blockT else _temperatureSamples s)
     (_temperatureSampleIndex s) (_numTemperatureSamples s)
     (if allocated then blockH else _humiditySamples s)
     (_humiditySampleIndex s) (_numHumiditySamples s),
   setPinMode INPUT_PULLUP w).

(** ** Concrete lines and objects, used for the examples below

    A frame is what the sensor puts on the line after a start pulse: a LOW
    and a HIGH acknowledge pulse, then per bit a LOW pulse and a HIGH pulse
    that is longer than the LOW one for a 1 and shorter for a 0, then LOW
    again.  Outside the listed samples the line idles HIGH (pull-up). *)

Module Scenario.

Definition bitsOfByte (b : Z) : list bool :=
  map (fun k => Z.testbit b k) [7; 6; 5; 4; 3; 2; 1; 0].

Definition bitPulses (b : bool) : list bool :=
  repeat LOW 3 ++ repeat HIGH (if b then 4 else 2)%nat.

Definition frame (bytes : list Z) : list bool :=
  repeat LOW 3 ++ repeat HIGH 3
  ++ concat (map bitPulses (concat (map bitsOfByte bytes)))
  ++ [LOW].

Definition lineOf (samples : list bool) : nat -> bool :=
  fun k => nth k samples HIGH.

Definition worldOf (samples : list bool) : World :=
  mkWorld 5000000 (lineOf samples) 0 INPUT_PULLUP HIGH true.

(** Static storage before the constructor runs: all zero. *)
Definition zeroed : DHT22 :=
  mkDHT22 0 0 (repeat 0 80) [0; 0; 0; 0; 0] false 0 0 0 0 None 0 0 None 0 0.

(** [DHT22 sensor(2); sensor.begin(maxReadRetries, numSamples);] on a
    16 MHz board, the two blocks from [malloc] holding zeros. *)
Definition sensor (maxReadRetries numSamples : Z) : DHT22 :=
  fst (begin maxReadRetries numSamples
         (Some (repeat 0 (Z.to_nat numSamples)))
         (Some (repeat 0 (Z.to_nat numSamples)))
         (construct zeroed 2 16) (worldOf [])).

(** What a call handed back. *)
Definition outcome (r : option (bool * DHT22 * World)) : option bool :=
  match r with Some (ok, _, _) => Some ok | None => None end.

Definition stateOf (r : option (bool * DHT22 * World)) : DHT22 :=
  match r with Some (_, s, _) => s | None => zeroed end.

Definition worldAfter (r : option (bool * DHT22 * World)) : World :=
  match r with Some (_, _, w) => w | None => worldOf [] end.

(** 55.0 %, -2.5 degrees, with the right parity byte and with a wrong one. *)
Definition goodFrame : list bool := frame [2; 38; 128; 25; 193].
Definition badFrame : list bool := frame [2; 38; 128; 25; 186].

(** The first call of [available] on a sensor that answers [goodFrame]. *)
Definition firstCall : option (bool * DHT22 * World) :=
  available 3 (sensor 2 0) (worldOf goodFrame).

(** One read of a sensor that answers [badFrame], no retry. *)
Definition badRead : option (bool * DHT22 * World) :=
  readSensorData 1 (sensor 0 0) (worldOf badFrame).

(** Two reads of a sensor that answers the payload [a] and then [b]: the
    application queries the temperature after the first, waits two
    seconds and calls [available] again. *)
Definition secondRead (numSamples : Z) (a b : list Z)
    : option (bool * DHT22 * World) :=
  match available 3 (sensor 2 numSamples) (worldOf (frame a ++ frame b)) with
  | Some (_, s1, w1) => available 3 (snd (readTemperature s1)) (delay 2000 w1)
  | None => None
  end.

(** 55.0 % with 10.0, 20.0 and -0.1 degrees. *)
Definition warm : list Z := [2; 38; 0; 100; 140].
Definition warmer : list Z := [2; 38; 0; 200; 240].
Definition justBelowZero : list Z := [2; 38; 128; 1; 169].

End Scenario.

(** ** Vocabulary of the properties *)

(** A payload: five bytes. *)
Definition payload (d : list Z) : Prop := length d = 5%nat /\ Forall is_uint8 d.

(** What one turn of the second loop does to the byte it works on. *)
Definition pushBit (bit : bool) (x : Z) : Z :=
  let y := to_uint8 (Z.shiftl x 1) in
  if bit then Z.lor y 1 else y.

(** The [t] most significant bits of the byte [b] ([t] cut to 0..8). *)
Definition topBits (b t : Z) : Z := Z.shiftr b (8 - Z.max 0 (Z.min 8 t)).

(** The five bytes of the buffer once the first [i] bits of [src] are in. *)
Definition partial (src : list Z) (i : nat) : list Z :=
  imap (fun k b => topBits b (Z.of_nat i - 8 * Z.of_nat k)) src.

(** The samples say the bits of [src]: none is 0, and in the pair of bit [i]
    the HIGH count exceeds the LOW count exactly when that bit is 1, bit 0
    being the most significant bit of byte 0. *)
Definition encodes (cs src : list Z) : Prop :=
  (forall k, (k < 80)%nat -> cs !!! k <> 0)
  /\ (forall i, (i < 40)%nat ->
        cs !!! (2 * i + 1)%nat > cs !!! (2 * i)%nat
        <-> Z.testbit (src !!! (i / 8)%nat) (7 - Z.of_nat (i mod 8)) = true).

(** Deciding [encodes] on given samples. *)
Definition encodesb (cs src : list Z) : bool :=
  forallb (fun k => negb (cs !!! k =? 0)) (seq 0 80)
  && forallb (fun i =>
       Bool.eqb (cs !!! (2 * i + 1)%nat >? cs !!! (2 * i)%nat)
                (Z.testbit (src !!! (i / 8)%nat) (7 - Z.of_nat (i mod 8))))
     (seq 0 40).

(** The three ways a turn of the retry loop ends: no start, no bytes or a
    parity error (both leave a failed status over a rewritten buffer), or a
    payload whose parity is right. *)
Inductive attemptOutcome (s : DHT22) : DHT22 -> Prop :=
| StartError : attemptOutcome s (set_status false s)
| ReadOrParityError cs data :
    attemptOutcome s (set_status false (set_capture cs data s))
| ValidPayload cs data :
    parityError data = false ->
    attemptOutcome s (set_status true (set_capture cs data s)).

(** The pulse widths measured in one turn of the retry loop, in the order
    the code measures them: the LOW start pulse; the HIGH start pulse when
    the first did not time out; the 80 data samples when neither did. *)
Definition attemptSamples (s : DHT22) (w : World) : list Z :=
  let '(lowCycles, w1) := measurePulseWidth LOW s (startScript w) in
  if lowCycles =? 0 then [lowCycles]
  else
    let '(highCycles, w2) := measurePulseWidth HIGH s w1 in
    if highCycles =? 0 then [lowCycles; highCycles]
    else lowCycles :: highCycles
           :: fst (captureLoop DHT22_NUM_DATA_BITS s (noInterrupts w2)).

(** The exact sum of a list of samples. *)
Definition total (l : list Z) : Z := fold_right Z.add 0 l.

(** Every running sum of [l], started at [acc], fits an [int16_t]. *)
Fixpoint runningSumFits (acc : Z) (l : list Z) : bool :=
  match l with
  | [] => true
  | x :: l' =>
      (-32768 <=? acc + x) && (acc + x <=? 32767) && runningSumFits (acc + x) l'
  end.

(** A sample buffer as [begin] and the value queries keep it: [numSamples]
    entries, an 8-bit index, at most [numSamples] of them counted valid. *)
Definition bufferOk (numSamples : Z) (samples : list Z) (index num : Z) : Prop :=
  0 < numSamples < 256
  /\ length samples = Z.to_nat numSamples
  /\ 0 <= index < 256
  /\ 0 <= num <= numSamples.

(** [n] value queries in a row, no call of [available] in between. *)
Fixpoint queryTemperature (n : nat) (s : DHT22) : list Z * DHT22 :=
  match n with
  | O => ([], s)
  | S n' =>
      let '(v, s) := readTemperature s in
      let '(vs, s) := queryTemperature n' s in
      (v :: vs, s)
  end.

Fixpoint queryHumidity (n : nat) (s : DHT22) : list Z * DHT22 :=
  match n with
  | O => ([], s)
  | S n' =>
      let '(v, s) := readHumidity s in
      let '(vs, s) := queryHumidity n' s in
      (v :: vs, s)
  end.

(** ** Vocabulary of the further properties *)

(** The world after [k] more reads of the pin, nothing else touched. *)
Definition advance (k : nat) (w : World) : World :=
  mkWorld (micros w) (line w) (polls w + k) (pinMode w) (pinOut w) (irq w).

(** The line shows [level] at the next [n] reads and another level at the
    read after them: a pulse of width [n]. *)
Definition pulseOf (level : bool) (n : nat) (w : World) : Prop :=
  (forall k, (k < n)%nat -> line w (polls w + k) = level)
  /\ line w (polls w + n) <> level.

(** From [w] to [w'] the pin was read at most [bound] times and the line
    is the same. *)
Definition readsAtMost (bound : nat) (w w' : World) : Prop :=
  line w' = line w /\ (polls w <= polls w' <= polls w + bound)%nat.

(** The object and the world at the head of turn [k] of the retry loop,
    when the [k] turns before it went through without leaving the loop. *)
Fixpoint turn (k : nat) (s : DHT22) (w : World) : DHT22 * World :=
  match k with
  | O => (s, w)
  | S k' =>
      let '(s1, w1) := turn k' s w in
      let '(s2, w2) := attempt s1 w1 in
      (set_retries (to_uint8 (_numReadRetries s2 + 1)) s2, w2)
  end.

(** The attempt made in turn [k]. *)
Definition attemptOfTurn (k : nat) (s : DHT22) (w : World) : DHT22 * World :=
  attempt (fst (turn k s w)) (snd (turn k s w)).

(** While a sample buffer is not full the write index equals the count of
    valid entries, so the next write lands just behind them. *)
Definition bufferInSync (numSamples index num : Z) : Prop :=
  num < numSamples -> index = num.

(** Two objects have the same configuration and the same averaging state. *)
Definition sameAverager (s s' : DHT22) : Prop :=
  _maxCycles s' = _maxCycles s
  /\ _pin s' = _pin s
  /\ _maxReadRetries s' = _maxReadRetries s
  /\ _numSamples s' = _numSamples s
  /\ _temperatureSamples s' = _temperatureSamples s
  /\ _temperatureSampleIndex s' = _temperatureSampleIndex s
  /\ _numTemperatureSamples s' = _numTemperatureSamples s
  /\ _humiditySamples s' = _humiditySamples s
  /\ _humiditySampleIndex s' = _humiditySampleIndex s
  /\ _numHumiditySamples s' = _numHumiditySamples s.

(** What holds of the object between the calls of its public functions. *)
Definition invariant (s : DHT22) : Prop :=
  is_uint8 (_maxReadRetries s)
  /\ (_statusLastMeasurement s = true ->
      payload (_data s) /\ parityError (_data s) = false)
  /\ (forall samples, _temperatureSamples s = Some samples ->
        bufferOk (_numSamples s) samples
          (_temperatureSampleIndex s) (_numTemperatureSamples s)
        /\ bufferInSync (_numSamples s)
             (_temperatureSampleIndex s) (_numTemperatureSamples s))
  /\ (forall samples, _humiditySamples s = Some samples ->
        bufferOk (_numSamples s) samples
          (_humiditySampleIndex s) (_numHumiditySamples s)
        /\ bufferInSync (_numSamples s)
             (_humiditySampleIndex s) (_numHumiditySamples s)).

(** The objects a program can get: one built in zeroed static storage and
    set up by one call of [begin], where each block that [malloc] returned
    has the size asked for, and then used through [available],
    [readTemperature] and [readHumidity]. *)
Inductive reachable : DHT22 -> Prop :=
| reach_begin mem pin cyclesPerMicrosecond maxReadRetries numSamples
      blockT blockH w :
    _statusLastMeasurement mem = false ->
    _temperatureSamples mem = None ->
    _humiditySamples mem = None ->
    (forall b, blockT = Some b -> length b = Z.to_nat (to_uint8 numSamples)) ->
    (forall b, blockH = Some b -> length b = Z.to_nat (to_uint8 numSamples)) ->
    reachable (fst (begin maxReadRetries numSamples blockT blockH
                      (construct mem pin cyclesPerMicrosecond) w))
| reach_available fuel s w ok s' w' :
    reachable s ->
    available fuel s w = Some (ok, s', w') ->
    reachable s'
| reach_readTemperature s :
    reachable s -> reachable (snd (readTemperature s))
| reach_readHumidity s :
    reachable s -> reachable (snd (readHumidity s)).

(** From read number [from] on, [line] shows [level] for exactly [n] reads
    and then the other level. *)
Fixpoint heldFor (n : nat) (level : bool) (line : nat -> bool) (from : nat) : bool :=
  match n with
  | O => negb (Bool.eqb (line from) level)
  | S n' => Bool.eqb (line from) level && heldFor n' level line (S from)
  end.

(** From read number [from] on, [line] shows pulses of alternating level,
    the first at [level], whose widths as a reader meets them one after the
    other are [ns]: the read that ends one pulse is the first of the
    next. *)
Fixpoint follows (ns : list nat) (level : bool) (line : nat -> bool) (from : nat)
    : bool :=
  match ns with
  | [] => true
  | n :: ns' =>
      heldFor n level line from && follows ns' (negb level) line (from + S n)
  end.

(** ** More concrete lines and objects *)

Module Cases.

(** A LOW pulse three reads wide. *)
Definition lowPulse : World := Scenario.worldOf [LOW; LOW; LOW; HIGH].

(** A sensor that answers the third start pulse only. *)
Definition retried : World :=
  Scenario.worldOf ([HIGH; HIGH] ++ Scenario.goodFrame).

(** The widths a reader meets in the data part of [Scenario.frame]. *)
Definition widthsOf (bytes : list Z) : list nat :=
  flat_map (fun b : bool => [2; if b then 3 else 1]%nat)
    (concat (map Scenario.bitsOfByte bytes)).

(** A first read with one sample configured. *)
Definition oneSample : option (bool * DHT22 * World) :=
  available 3 (Scenario.sensor 2 1) (Scenario.worldOf Scenario.goodFrame).

(** Two reads of 10.0 degrees, three samples configured. *)
Definition sameTwice : option (bool * DHT22 * World) :=
  Scenario.secondRead 3 Scenario.warm Scenario.warm.

(** 2000.0 degrees: far from what the sensor gives, but a payload the code
    accepts. *)
Definition hot : list Z := [2; 38; 78; 32; 150].

(** Two reads of [hot], two samples configured. *)
Definition hotTwice : option (bool * DHT22 * World) :=
  Scenario.secondRead 2 hot hot.

End Cases.


(** * Properties *)

(** ** Fixed-width arithmetic *)

Lemma to_int16_id z : is_int16 z -> to_int16 z = z.
Proof.
  unfold is_int16, to_int16. intros Hz.
  rewrite Z.mod_small by lia. lia.
Qed.

Lemma to_int16_range z : is_int16 (to_int16 z).
Proof.
  unfold is_int16, to_int16.
  pose proof (Z.mod_pos_bound (z + 32768) 65536). lia.
Qed.

Lemma to_uint8_id z : is_uint8 z -> to_uint8 z = z.
Proof. unfold is_uint8, to_uint8. intros Hz. apply Z.mod_small. lia. Qed.

Lemma to_uint8_range z : is_uint8 (to_uint8 z).
Proof. unfold is_uint8, to_uint8. apply Z.mod_pos_bound. lia. Qed.

Lemma invalid_value : invalid = -1.
Proof. reflexivity. Qed.

Lemma payload_inv d :
  payload d ->
  exists b0 b1 b2 b3 b4,
    d = [b0; b1; b2; b3; b4] /\
    is_uint8 b0 /\ is_uint8 b1 /\ is_uint8 b2 /\ is_uint8 b3 /\ is_uint8 b4.
Proof.
  intros [Hlen Hall].
  destruct d as [|b0 [|b1 [|b2 [|b3 [|b4 [|? ?]]]]]]; try discriminate.
  exists b0, b1, b2, b3, b4.
  repeat (apply Forall_cons in Hall; destruct Hall as [? Hall]).
  auto 10.
Qed.

(** ** The pulse timing reader *)

Lemma pulseLoop_other_level turns level maxCycles count w :
  line w (polls w) <> level ->
  pulseLoop turns level maxCycles count w = (count, snd (digitalRead w)).
Proof.
  intros Hne. destruct turns; simpl;
    (destruct (Bool.eqb (line w (polls w)) level) eqn:E;
     [apply Bool.eqb_prop in E; contradiction | reflexivity]).
Qed.

Lemma pulseLoop_held turns level maxCycles : forall count w,
  (forall k, (k <= turns)%nat -> line w (polls w + k) = level) ->
  fst (pulseLoop turns level maxCycles count w) = 0.
Proof.
  induction turns as [|turns IH]; intros count w Hheld.
  - simpl. rewrite <- (Hheld 0%nat), Nat.add_0_r, Bool.eqb_reflx by lia.
    destruct (maxCycles <=? count); reflexivity.
  - cbn [pulseLoop digitalRead].
    specialize (Hheld 0%nat ltac:(lia)) as H0. rewrite Nat.add_0_r in H0.
    rewrite H0, Bool.eqb_reflx.
    destruct (maxCycles <=? count); [reflexivity|].
    apply IH. intros k Hk. cbn [line polls].
    replace (S (polls w) + k)%nat with (polls w + S k)%nat by lia.
    apply Hheld. lia.
Qed.

(** Every operation of the driver leaves the line itself alone. *)
Lemma pulseLoop_line turns level maxCycles : forall count w,
  line (snd (pulseLoop turns level maxCycles count w)) = line w.
Proof.
  induction turns as [|turns IH]; intros count w; cbn [pulseLoop digitalRead];
    destruct (Bool.eqb _ level); try reflexivity;
    destruct (maxCycles <=? count); try reflexivity.
  rewrite IH. reflexivity.
Qed.

(** C10: a pulse of width zero (the line is not at the level asked for at the
    very first poll) makes [measurePulseWidth] return 0, and 0 is also what it
    returns for a timeout (the line stays at the level for [_maxCycles + 1]
    polls): the caller cannot tell the two apart. *)
Theorem measurePulseWidth_zero_width_is_timeout_value :
  forall (level : bool) (s : DHT22) (w : World),
    (line w (polls w) <> level ->
     measurePulseWidth level s w = (0, snd (digitalRead w)))
    /\
    ((forall k, (k <= Z.to_nat (_maxCycles s))%nat ->
                line w (polls w + k) = level) ->
     fst (measurePulseWidth level s w) = 0).
Proof.
  intros level s w. split.
  - intros Hne. unfold measurePulseWidth. apply pulseLoop_other_level, Hne.
  - intros Hheld. unfold measurePulseWidth. apply pulseLoop_held, Hheld.
Qed.

Lemma measurePulseWidth_zero_width_witness :
  line (Scenario.worldOf []) (polls (Scenario.worldOf [])) <> LOW
  /\ measurePulseWidth LOW (Scenario.sensor 2 0) (Scenario.worldOf [])
     = (0, snd (digitalRead (Scenario.worldOf [])))
  /\ fst (measurePulseWidth HIGH (Scenario.sensor 2 0) (Scenario.worldOf [])) = 0.
Proof.
  pose proof (measurePulseWidth_zero_width_is_timeout_value
                LOW (Scenario.sensor 2 0) (Scenario.worldOf [])) as [Hzero _].
  pose proof (measurePulseWidth_zero_width_is_timeout_value
                HIGH (Scenario.sensor 2 0) (Scenario.worldOf [])) as [_ Htimeout].
  assert (Hne : line (Scenario.worldOf []) (polls (Scenario.worldOf [])) <> LOW)
    by (simpl; discriminate).
  split; [exact Hne|]. split; [exact (Hzero Hne)|].
  apply Htimeout. intros k _. simpl. destruct k; reflexivity.
Defined.

(** ** Value queries after a failed measurement *)

(** C7: when the last measurement is marked failed, [readTemperature] and
    [readHumidity] return the all-ones 16-bit value (-1 as an [int16_t],
    0xFFFF as a bit pattern) and return the object as it was: sample buffers,
    indices and counts are untouched. *)
Theorem failed_measurement_reads_invalid :
  forall s : DHT22,
    _statusLastMeasurement s = false ->
    readTemperature s = (invalid, s)
    /\ readHumidity s = (invalid, s)
    /\ invalid = -1
    /\ Z.land invalid (Z.ones 16) = Z.ones 16.
Proof.
  intros s Hfailed. unfold readTemperature, readHumidity.
  rewrite Hfailed. simpl. repeat split.
Qed.

Lemma failed_measurement_reads_invalid_witness :
  _statusLastMeasurement (Scenario.sensor 2 3) = false
  /\ readTemperature (Scenario.sensor 2 3) = (invalid, Scenario.sensor 2 3)
  /\ readHumidity (Scenario.sensor 2 3) = (invalid, Scenario.sensor 2 3).
Proof.
  assert (H : _statusLastMeasurement (Scenario.sensor 2 3) = false) by reflexivity.
  split; [exact H|].
  destruct (failed_measurement_reads_invalid (Scenario.sensor 2 3) H) as (Ht & Hh & _).
  split; [exact Ht | exact Hh].
Defined.

(** ** Decoding the temperature *)

Lemma land_127 b : is_uint8 b -> Z.land b 127 = b mod 128.
Proof. intros _. change 127 with (Z.ones 7). apply Z.land_ones. lia. Qed.

Lemma magnitude_value b2 b3 :
  is_uint8 b2 -> is_uint8 b3 ->
  Z.lor (Z.shiftl (Z.land b2 127) 8) b3 = 256 * (b2 mod 128) + b3.
Proof.
  intros H2 H3. rewrite land_127 by assumption.
  rewrite Z.shiftl_mul_pow2 by lia. change (2 ^ 8) with 256.
  rewrite <- Z.add_nocarry_lor; [lia|].
  apply Z.bits_inj'. intros n Hn.
  rewrite Z.land_spec, Z.bits_0.
  destruct (Z.ltb_spec n 8) as [Hlt|Hge].
  - change 256 with (2 ^ 8).
    rewrite Z.mul_pow2_bits_low by lia. reflexivity.
  - replace (Z.testbit b3 n) with false; [apply andb_false_r|].
    symmetry. apply Z.bits_above_log2; [unfold is_uint8 in H3; lia|].
    destruct (Z.eq_dec b3 0) as [->|Hnz]; [simpl; lia|].
    apply Z.log2_lt_pow2; [unfold is_uint8 in H3; lia|].
    apply Z.lt_le_trans with (2 ^ 8); [unfold is_uint8 in H3; simpl; lia|].
    apply Z.pow_le_mono_r; lia.
Qed.

Lemma sign_bit b : is_uint8 b -> negb (Z.land b 128 =? 0) = Z.testbit b 7.
Proof.
  intros Hb.
  assert (Hland : Z.land b 128 = if Z.testbit b 7 then 128 else 0).
  { apply Z.bits_inj'. intros n Hn. rewrite Z.land_spec.
    change 128 with (2 ^ 7). rewrite Z.pow2_bits_eqb by lia.
    destruct (Z.eqb_spec 7 n) as [<-|Hne].
    - rewrite andb_true_r. destruct (Z.testbit b 7) eqn:E.
      + change 128 with (2 ^ 7). rewrite Z.pow2_bits_true; [reflexivity|lia].
      + rewrite Z.bits_0. reflexivity.
    - rewrite andb_false_r. destruct (Z.testbit b 7).
      + change 128 with (2 ^ 7). rewrite Z.pow2_bits_false by assumption. reflexivity.
      + rewrite Z.bits_0. reflexivity. }
  rewrite Hland. destruct (Z.testbit b 7); reflexivity.
Qed.

Lemma decodeTemperature_sign_magnitude d :
  is_uint8 (d !!! 2%nat) -> is_uint8 (d !!! 3%nat) ->
  decodeTemperature d =
    if Z.testbit (d !!! 2%nat) 7
    then - (256 * (d !!! 2%nat mod 128) + d !!! 3%nat)
    else 256 * (d !!! 2%nat mod 128) + d !!! 3%nat.
Proof.
  intros H2 H3. unfold decodeTemperature.
  rewrite magnitude_value, sign_bit by assumption.
  pose proof (Z.mod_pos_bound (d !!! 2%nat) 128 ltac:(lia)) as Hm.
  unfold is_uint8 in H3.
  rewrite (to_int16_id (256 * _ + _)) by (unfold is_int16; lia).
  destruct (Z.testbit _ 7); [|reflexivity].
  rewrite to_int16_id by (unfold is_int16; lia). lia.
Qed.

(** C8: the temperature of a payload is sign and magnitude: the magnitude is
    [((byte2 & 0x7F) << 8) | byte3], a number of tenths of a degree between
    0 and 32767, and the value is its arithmetic negation when the top bit of
    byte 2 is set.  The bytes 0x80, 0x19 give -25, where two's complement
    would give -32743.  With no sample buffer this is what
    [readTemperature] returns after a successful measurement. *)
Theorem temperature_is_sign_magnitude :
  forall d : list Z,
    payload d ->
    let magnitude := Z.lor (Z.shiftl (Z.land (d !!! 2%nat) 127) 8) (d !!! 3%nat) in
    decodeTemperature d = (if Z.testbit (d !!! 2%nat) 7 then - magnitude else magnitude)
    /\ 0 <= magnitude <= 32767
    /\ (d !!! 2%nat = 128 -> d !!! 3%nat = 25 ->
        decodeTemperature d = -25
        /\ to_int16 (256 * d !!! 2%nat + d !!! 3%nat) = -32743)
    /\ (forall s, _data s = d -> _statusLastMeasurement s = true ->
                  _temperatureSamples s = None ->
                  readTemperature s = (decodeTemperature d, s)).
Proof.
  intros d Hd magnitude.
  destruct (payload_inv d Hd) as (b0 & b1 & b2 & b3 & b4 & -> & _ & _ & H2 & H3 & _).
  subst magnitude. cbn [lookup_total list_lookup_total].
  assert (Hdec := decodeTemperature_sign_magnitude [b0; b1; b2; b3; b4] H2 H3).
  cbn [lookup_total list_lookup_total] in Hdec.
  rewrite magnitude_value by assumption.
  pose proof (Z.mod_pos_bound b2 128 ltac:(lia)) as Hm. unfold is_uint8 in H3.
  split; [exact Hdec|]. split; [lia|]. split.
  - intros -> ->. rewrite Hdec. split; reflexivity.
  - intros s Hdata Hok Hnone. unfold readTemperature.
    rewrite Hok, Hnone, Hdata. reflexivity.
Qed.

Lemma temperature_is_sign_magnitude_witness :
  payload [2; 38; 128; 25; 193]
  /\ decodeTemperature [2; 38; 128; 25; 193] = -25.
Proof.
  assert (Hp : payload [2; 38; 128; 25; 193]).
  { split; [reflexivity|]. repeat constructor; unfold is_uint8; lia. }
  split; [exact Hp|].
  destruct (temperature_is_sign_magnitude _ Hp) as (_ & _ & Hex & _).
  exact (proj1 (Hex eq_refl eq_refl)).
Defined.

(** ** The bit decoder *)

Lemma storeBit_pushBit i lowCycles highCycles (d : list Z) :
  (i / 8 < length d)%nat ->
  storeBit i lowCycles highCycles d
  = <[(i / 8)%nat := pushBit (highCycles >? lowCycles) (d !!! (i / 8)%nat)]> d.
Proof.
  intros Hlt. unfold storeBit, pushBit.
  destruct (highCycles >? lowCycles); [|reflexivity].
  rewrite list_lookup_total_insert_eq, list_insert_insert_eq by assumption.
  reflexivity.
Qed.

Lemma pushBit_topBits_table :
  forallb (fun b =>
    forallb (fun m => pushBit (Z.testbit b (7 - m)) (topBits b m) =? topBits b (m + 1))
            [0; 1; 2; 3; 4; 5; 6; 7])
    (map Z.of_nat (seq 0 256)) = true.
Proof. vm_compute. reflexivity. Qed.

Lemma pushBit_topBits b m :
  is_uint8 b -> 0 <= m < 8 ->
  pushBit (Z.testbit b (7 - m)) (topBits b m) = topBits b (m + 1).
Proof.
  intros Hb Hm. unfold is_uint8 in Hb.
  pose proof pushBit_topBits_table as Htable.
  rewrite forallb_forall in Htable.
  specialize (Htable b). rewrite forallb_forall in Htable.
  apply Z.eqb_eq, Htable.
  - rewrite <- (Z2Nat.id b) by lia. apply in_map, in_seq. lia.
  - assert (m = 0 \/ m = 1 \/ m = 2 \/ m = 3 \/ m = 4 \/ m = 5 \/ m = 6 \/ m = 7)
      as Hcases by lia.
    simpl. intuition.
Qed.

Lemma topBits_none b t : is_uint8 b -> t <= 0 -> topBits b t = 0.
Proof.
  intros Hb Ht. unfold topBits, is_uint8 in *.
  replace (8 - Z.max 0 (Z.min 8 t)) with 8 by lia.
  rewrite Z.shiftr_div_pow2 by lia. apply Z.div_small. simpl. lia.
Qed.

Lemma topBits_all b t : 8 <= t -> topBits b t = b.
Proof.
  intros Ht. unfold topBits.
  replace (8 - Z.max 0 (Z.min 8 t)) with 0 by lia. apply Z.shiftr_0_r.
Qed.

Lemma topBits_outside b t : t < 0 \/ 8 <= t -> topBits b (t + 1) = topBits b t.
Proof. intros Ht. unfold topBits. f_equal. lia. Qed.

Lemma nat_div8 (i : nat) :
  (i < 40)%nat ->
  (i / 8 < 5)%nat /\ (i = 8 * (i / 8) + i mod 8)%nat /\ (i mod 8 < 8)%nat.
Proof.
  intros Hi. pose proof (Nat.div_mod_eq i 8). pose proof (Nat.mod_upper_bound i 8). lia.
Qed.

Lemma storeBit_partial src i lowCycles highCycles :
  payload src -> (i < 40)%nat ->
  (highCycles >? lowCycles)
  = Z.testbit (src !!! (i / 8)%nat) (7 - Z.of_nat (i mod 8)) ->
  storeBit i lowCycles highCycles (partial src i) = partial src (S i).
Proof.
  intros Hsrc Hi Hbit.
  destruct (payload_inv src Hsrc) as (b0 & b1 & b2 & b3 & b4 & -> & H0 & H1 & H2 & H3 & H4).
  destruct (nat_div8 i Hi) as (Hk & Hdm & Hm).
  rewrite storeBit_pushBit by (unfold partial; rewrite length_imap; exact Hk).
  rewrite Hbit. unfold partial.
  rewrite Nat2Z.inj_succ, <- Z.add_1_r.
  destruct (i / 8)%nat as [|[|[|[|[|k]]]]] eqn:Ek; [..|lia];
    cbn [imap compose lookup_total list_lookup_total insert list_insert];
    repeat (apply (f_equal2 (@cons Z))); try reflexivity;
    try (unfold topBits; f_equal; lia);
    match goal with
    | |- pushBit _ (topBits ?b ?t) = topBits ?b ?t' =>
        replace t with (Z.of_nat (i mod 8)) by lia;
        replace t' with (Z.of_nat (i mod 8) + 1) by lia;
        apply pushBit_topBits; [assumption | lia]
    end.
Qed.

Lemma partial_start src : payload src -> partial src 0 = [0; 0; 0; 0; 0].
Proof.
  intros Hsrc.
  destruct (payload_inv src Hsrc) as (b0 & b1 & b2 & b3 & b4 & -> & H0 & H1 & H2 & H3 & H4).
  unfold partial. cbn [imap compose].
  rewrite !topBits_none by (assumption || lia). reflexivity.
Qed.

Lemma partial_end src : payload src -> partial src 40 = src.
Proof.
  intros Hsrc.
  destruct (payload_inv src Hsrc) as (b0 & b1 & b2 & b3 & b4 & -> & _).
  unfold partial. cbn [imap compose].
  rewrite !topBits_all by lia. reflexivity.
Qed.

Lemma decodeLoop_partial cs src :
  payload src -> encodes cs src ->
  forall n i, (i + n = 40)%nat ->
    decodeLoop n i cs (partial src i) = (true, src).
Proof.
  intros Hsrc [Hnz Hbits]. induction n as [|n IH]; intros i Hi.
  - simpl. replace i with 40%nat by lia. rewrite partial_end by assumption. reflexivity.
  - cbn [decodeLoop].
    destruct (Z.eqb_spec (cs !!! (2 * i)%nat) 0) as [E|_];
      [exfalso; apply (Hnz (2 * i)%nat); [lia | exact E]|].
    destruct (Z.eqb_spec (cs !!! (2 * i + 1)%nat) 0) as [E|_];
      [exfalso; apply (Hnz (2 * i + 1)%nat); [lia | exact E]|].
    cbn [orb]. rewrite storeBit_partial; [apply IH; lia | assumption | lia |].
    specialize (Hbits i ltac:(lia)).
    destruct (Z.testbit _ _).
    + apply Z.gtb_gt, Hbits. reflexivity.
    + destruct (Z.gtb_spec (cs !!! (2 * i + 1)%nat) (cs !!! (2 * i)%nat)) as [Hgt|]; [|reflexivity].
      apply Z.lt_gt, Hbits in Hgt. discriminate.
Qed.

Lemma captureLoop_length s : forall pairs w,
  length (fst (captureLoop pairs s w)) = (2 * pairs)%nat.
Proof.
  induction pairs as [|pairs IH]; intros w; [reflexivity|].
  cbn [captureLoop].
  destruct (measurePulseWidth LOW s w) as [lo w1].
  destruct (measurePulseWidth HIGH s w1) as [hi w2].
  specialize (IH w2). destruct (captureLoop pairs s w2) as [rest w3].
  cbn [fst length] in *. lia.
Qed.

(** C2: for 80 pulse widths that are all non-zero and in which, pair by
    pair, the HIGH count exceeds the LOW count exactly when the
    corresponding bit of the five source bytes is 1 (most significant bit of
    byte 0 first), the second loop of [readBytes] gives exactly the five
    source bytes; and when the widths that [readBytes] captures are such, it
    returns true with the source bytes in [_data]. *)
Theorem readBytes_reconstructs_source_bytes :
  forall src : list Z,
    payload src ->
    (forall cs : list Z,
       encodes cs src ->
       decodeLoop DHT22_NUM_DATA_BITS 0 cs [0; 0; 0; 0; 0] = (true, src))
    /\
    (forall (s : DHT22) (w : World),
       encodes (fst (captureLoop DHT22_NUM_DATA_BITS s (noInterrupts w))) src ->
       fst (fst (readBytes s w)) = true
       /\ _data (snd (fst (readBytes s w))) = src
       /\ cycles (snd (fst (readBytes s w)))
          = fst (captureLoop DHT22_NUM_DATA_BITS s (noInterrupts w))).
Proof.
  intros src Hsrc.
  assert (Hdecode : forall cs, encodes cs src ->
            decodeLoop DHT22_NUM_DATA_BITS 0 cs [0; 0; 0; 0; 0] = (true, src)).
  { intros cs Henc. rewrite <- (partial_start src Hsrc).
    exact (decodeLoop_partial cs src Hsrc Henc 40 0 eq_refl). }
  split; [exact Hdecode|].
  intros s w Henc. unfold readBytes.
  destruct (captureLoop DHT22_NUM_DATA_BITS s (noInterrupts w)) as [cs w1].
  cbn [fst] in Henc. rewrite (Hdecode cs Henc). repeat split.
Qed.
Lemma encodesb_sound cs src : encodesb cs src = true -> encodes cs src.
Proof.
  unfold encodesb, encodes. rewrite andb_true_iff, !forallb_forall.
  intros [Hnz Hbits]. split.
  - intros k Hk E. specialize (Hnz k). rewrite E in Hnz.
    specialize (Hnz ltac:(apply in_seq; lia)). discriminate.
  - intros i Hi. specialize (Hbits i ltac:(apply in_seq; lia)).
    apply Bool.eqb_prop in Hbits. rewrite <- Hbits. symmetry. apply Z.gtb_gt.
Qed.

Lemma readBytes_reconstructs_source_bytes_witness :
  payload [2; 38; 128; 25; 193]
  /\ _data (snd (fst (readBytes (Scenario.sensor 2 0)
       (snd (generateStart (Scenario.sensor 2 0)
          (Scenario.worldOf (Scenario.frame [2; 38; 128; 25; 193])))))))
     = [2; 38; 128; 25; 193].
Proof.
  assert (Hp : payload [2; 38; 128; 25; 193]).
  { split; [reflexivity|]. repeat constructor; unfold is_uint8; lia. }
  split; [exact Hp|].
  apply (proj2 (readBytes_reconstructs_source_bytes [2; 38; 128; 25; 193] Hp)
           (Scenario.sensor 2 0)
           (snd (generateStart (Scenario.sensor 2 0)
              (Scenario.worldOf (Scenario.frame [2; 38; 128; 25; 193]))))).
  apply encodesb_sound. vm_compute. reflexivity.
Defined.

(** ** The read orchestrator *)

Lemma readBytes_shape s w :
  exists ok cs data w', readBytes s w = (ok, set_capture cs data s, w').
Proof.
  unfold readBytes.
  destruct (captureLoop DHT22_NUM_DATA_BITS s (noInterrupts w)) as [cs w1].
  destruct (decodeLoop DHT22_NUM_DATA_BITS 0 cs [0; 0; 0; 0; 0]) as [ok data].
  exists ok, cs, data, (interrupts w1). reflexivity.
Qed.

Lemma attempt_outcome s w : attemptOutcome s (fst (attempt s w)).
Proof.
  unfold attempt.
  destruct (generateStart (set_status true s) w) as [[|] w1]; cbn.
  - destruct (readBytes_shape (set_status true s) w1) as (ok & cs & data & w2 & Hshape).
    rewrite Hshape. destruct ok; cbn.
    + destruct (parityError data) eqn:Hpar; cbn.
      * exact (ReadOrParityError s cs data).
      * exact (ValidPayload s cs data Hpar).
    + exact (ReadOrParityError s cs data).
  - exact (StartError s).
Qed.

Lemma attempt_fields s w :
  _lastMeasurementTimestamp (fst (attempt s w)) = _lastMeasurementTimestamp s
  /\ _maxReadRetries (fst (attempt s w)) = _maxReadRetries s
  /\ _numReadRetries (fst (attempt s w)) = _numReadRetries s
  /\ _maxCycles (fst (attempt s w)) = _maxCycles s.
Proof. destruct (attempt_outcome s w); repeat split. Qed.

Lemma attempt_parity s w :
  _statusLastMeasurement (fst (attempt s w)) = true ->
  parityError (_data (fst (attempt s w))) = false.
Proof. destruct (attempt_outcome s w); cbn; intros; congruence. Qed.

Lemma retryLoop_fields fuel : forall s w s' w',
  retryLoop fuel s w = Some (s', w') ->
  _lastMeasurementTimestamp s' = _lastMeasurementTimestamp s
  /\ _maxReadRetries s' = _maxReadRetries s.
Proof.
  induction fuel as [|fuel IH]; intros s w s' w'; cbn [retryLoop];
    destruct (_numReadRetries s <=? _maxReadRetries s);
    try discriminate; try (intros [= <- <-]; split; reflexivity).
  pose proof (attempt_fields s w) as (Ht & Hm & _).
  destruct (attempt s w) as [s1 w1]. cbn [fst] in *.
  destruct (_statusLastMeasurement s1).
  - intros [= <- <-]. split; assumption.
  - intros Hloop. apply IH in Hloop. cbn in Hloop. destruct Hloop. split; congruence.
Qed.

Lemma retryLoop_exit fuel s w :
  _maxReadRetries s < _numReadRetries s -> retryLoop fuel s w = Some (s, w).
Proof.
  intros Hgt. destruct fuel; cbn [retryLoop];
    (destruct (Z.leb_spec (_numReadRetries s) (_maxReadRetries s)); [lia | reflexivity]).
Qed.

Lemma retryLoop_step fuel s w :
  _numReadRetries s <= _maxReadRetries s ->
  retryLoop (S fuel) s w =
    if _statusLastMeasurement (fst (attempt s w))
    then Some (attempt s w)
    else retryLoop fuel
           (set_retries (to_uint8 (_numReadRetries (fst (attempt s w)) + 1))
              (fst (attempt s w)))
           (snd (attempt s w)).
Proof.
  intros Hle. cbn [retryLoop].
  destruct (Z.leb_spec (_numReadRetries s) (_maxReadRetries s)); [|lia].
  destruct (attempt s w) as [s1 w1]. reflexivity.
Qed.

(** The loop leaves with a good status only over a payload whose parity is
    right, when it is entered at all or starts from a failed status. *)
Lemma retryLoop_parity fuel : forall s w s' w',
  _numReadRetries s <= _maxReadRetries s \/ _statusLastMeasurement s = false ->
  retryLoop fuel s w = Some (s', w') ->
  _statusLastMeasurement s' = true -> parityError (_data s') = false.
Proof.
  induction fuel as [|fuel IH]; intros s w s' w' Hpre.
  - cbn [retryLoop].
    destruct (Z.leb_spec (_numReadRetries s) (_maxReadRetries s)); [discriminate|].
    intros [= <- <-]. destruct Hpre; [lia | congruence].
  - destruct (Z.le_gt_cases (_numReadRetries s) (_maxReadRetries s)) as [Hle|Hgt].
    + rewrite retryLoop_step by exact Hle.
      pose proof (attempt_parity s w) as Hpar.
      destruct (attempt s w) as [s1 w1]. cbn [fst snd] in *.
      destruct (_statusLastMeasurement s1) eqn:Hst.
      * intros [= <- <-] _. auto.
      * apply IH. right. exact Hst.
    + rewrite retryLoop_exit by lia.
      intros [= <- <-]. destruct Hpre; [lia | congruence].
Qed.

Lemma land_255 z : Z.land z 255 = z mod 256.
Proof. change 255 with (Z.ones 8). apply Z.land_ones. lia. Qed.

Lemma parityError_iff d :
  parityError d = true
  <-> d !!! 4%nat <> (d !!! 0%nat + d !!! 1%nat + d !!! 2%nat + d !!! 3%nat) mod 256.
Proof.
  unfold parityError. rewrite land_255, negb_true_iff, Z.eqb_neq.
  split; intros H E; apply H; symmetry; exact E.
Qed.

(** C1: a payload whose byte 4 differs from the sum of bytes 0..3 modulo
    256 marks the attempt that decoded it as failed; and when
    [readSensorData] returns over such a payload it returns false, leaves the
    status failed, and [readTemperature] and [readHumidity] then return the
    invalid value, whatever the payload holds, and leave the object alone. *)
Theorem parity_mismatch_is_never_published :
  forall (s : DHT22) (w : World),
    (let d := _data (fst (attempt s w)) in
     d !!! 4%nat <> (d !!! 0%nat + d !!! 1%nat + d !!! 2%nat + d !!! 3%nat) mod 256 ->
     _statusLastMeasurement (fst (attempt s w)) = false)
    /\
    (forall fuel ok s' w',
       is_uint8 (_maxReadRetries s) ->
       readSensorData fuel s w = Some (ok, s', w') ->
       (let d := _data s' in
        d !!! 4%nat <> (d !!! 0%nat + d !!! 1%nat + d !!! 2%nat + d !!! 3%nat) mod 256) ->
       ok = false
       /\ _statusLastMeasurement s' = false
       /\ readTemperature s' = (invalid, s')
       /\ readHumidity s' = (invalid, s')).
Proof.
  intros s w. split.
  - intros d Hbad. apply parityError_iff in Hbad.
    destruct (_statusLastMeasurement (fst (attempt s w))) eqn:Hst; [|reflexivity].
    apply attempt_parity in Hst. subst d. congruence.
  - intros fuel ok s' w' Hmax Hread Hbad. cbn zeta in Hbad.
    apply parityError_iff in Hbad.
    unfold readSensorData in Hread.
    destruct (retryLoop fuel (set_retries 0 (set_timestamp (millis w) s)) w)
      as [[s1 w1]|] eqn:Hloop; [|discriminate].
    injection Hread as <- <- <-. cbn in Hbad |- *.
    assert (Hst : _statusLastMeasurement s1 = false).
    { destruct (_statusLastMeasurement s1) eqn:Hst; [|reflexivity].
      apply retryLoop_parity in Hloop; [congruence | | exact Hst].
      left. cbn. unfold is_uint8 in Hmax. lia. }
    unfold readTemperature, readHumidity. cbn. rewrite Hst. cbn. auto.
Qed.

Lemma parity_mismatch_is_never_published_witness :
  is_uint8 (_maxReadRetries (Scenario.sensor 0 0))
  /\ _data (Scenario.stateOf Scenario.badRead) = [2; 38; 128; 25; 186]
  /\ readTemperature (Scenario.stateOf Scenario.badRead)
     = (invalid, Scenario.stateOf Scenario.badRead).
Proof.
  assert (Hmax : is_uint8 (_maxReadRetries (Scenario.sensor 0 0)))
    by (vm_compute; split; [discriminate | reflexivity]).
  split; [exact Hmax|]. split; [vm_compute; reflexivity|].
  refine (proj1 (proj2 (proj2
    (proj2 (parity_mismatch_is_never_published
              (Scenario.sensor 0 0) (Scenario.worldOf Scenario.badFrame))
       1%nat false (Scenario.stateOf Scenario.badRead)
       (Scenario.worldAfter Scenario.badRead) Hmax _ _)))).
  - vm_compute. reflexivity.
  - vm_compute. discriminate.
Defined.

(** ** The minimum interval *)

Lemma readSensorData_timestamp fuel s w ok s' w' :
  readSensorData fuel s w = Some (ok, s', w') ->
  _lastMeasurementTimestamp s' = millis w.
Proof.
  unfold readSensorData.
  destruct (retryLoop fuel _ w) as [[s1 w1]|] eqn:Hloop; [|discriminate].
  intros [= <- <- <-]. apply retryLoop_fields in Hloop as [Ht _].
  cbn in *. exact Ht.
Qed.

(** C3, as the code has it: a call of [available] less than 2000 ms after
    the start of the last read that was attempted (the difference of the two
    [millis] readings taken modulo 2^32) returns false, whatever that read's
    outcome was; it leaves the object, and with it the cached payload and
    status, as they were, and does nothing to the pin or the clock. *)
Theorem available_within_interval_returns_false :
  forall (fuel : nat) (s : DHT22) (w : World),
    (to_uint32 (millis w - _lastMeasurementTimestamp s) < 2000 ->
     available fuel s w = Some (false, s, w))
    /\
    (forall ok s1 w1 w2,
       readSensorData fuel s w = Some (ok, s1, w1) ->
       to_uint32 (millis w2 - millis w) < 2000 ->
       available fuel s1 w2 = Some (false, s1, w2)).
Proof.
  intros fuel s w.
  assert (Hguard : forall s0 w0,
             to_uint32 (millis w0 - _lastMeasurementTimestamp s0) < 2000 ->
             available fuel s0 w0 = Some (false, s0, w0)).
  { intros s0 w0 Hlt. unfold available.
    destruct (Z.ltb_spec (to_uint32 (millis w0 - _lastMeasurementTimestamp s0)) 2000);
      [reflexivity | lia]. }
  split; [apply Hguard|].
  intros ok s1 w1 w2 Hread Hlt. apply Hguard.
  rewrite (readSensorData_timestamp _ _ _ _ _ _ Hread). exact Hlt.
Qed.

Lemma available_within_interval_returns_false_witness :
  to_uint32 (millis (Scenario.worldAfter Scenario.firstCall)
             - _lastMeasurementTimestamp (Scenario.stateOf Scenario.firstCall)) < 2000
  /\ available 3 (Scenario.stateOf Scenario.firstCall)
       (Scenario.worldAfter Scenario.firstCall)
     = Some (false, Scenario.stateOf Scenario.firstCall,
             Scenario.worldAfter Scenario.firstCall).
Proof.
  assert (Hlt : to_uint32 (millis (Scenario.worldAfter Scenario.firstCall)
                  - _lastMeasurementTimestamp (Scenario.stateOf Scenario.firstCall))
                < 2000) by (vm_compute; reflexivity).
  split; [exact Hlt|].
  exact (proj1 (available_within_interval_returns_false 3
                  (Scenario.stateOf Scenario.firstCall)
                  (Scenario.worldAfter Scenario.firstCall)) Hlt).
Defined.

(** C3 as stated fails: the first call reads the sensor and returns true;
    a second call 30 ms after the start of that read returns false, which is
    not the prior outcome. *)
Lemma second_call_does_not_return_prior_outcome :
  Scenario.outcome Scenario.firstCall = Some true
  /\ to_uint32 (millis (Scenario.worldAfter Scenario.firstCall)
                - _lastMeasurementTimestamp (Scenario.stateOf Scenario.firstCall)) = 30
  /\ Scenario.outcome
       (available 3 (Scenario.stateOf Scenario.firstCall)
          (Scenario.worldAfter Scenario.firstCall))
     = Some false.
Proof. vm_compute. repeat split. Qed.

(** ** Timeouts *)

Lemma decodeLoop_zero cs : forall n i d k,
  (2 * i <= k < 2 * (i + n))%nat -> cs !!! k = 0 ->
  fst (decodeLoop n i cs d) = false.
Proof.
  induction n as [|n IH]; intros i d k Hk Hzero; [lia|].
  cbn [decodeLoop].
  destruct (Z.eqb_spec (cs !!! (2 * i)%nat) 0) as [|Hlo]; [reflexivity|].
  destruct (Z.eqb_spec (cs !!! (2 * i + 1)%nat) 0) as [|Hhi]; [reflexivity|].
  cbn [orb]. apply IH with (k := k); [|exact Hzero].
  assert (k <> (2 * i)%nat) by congruence.
  assert (k <> (2 * i + 1)%nat) by congruence.
  lia.
Qed.

Lemma readBytes_zero_sample s w :
  0 ∈ fst (captureLoop DHT22_NUM_DATA_BITS s (noInterrupts w)) ->
  fst (fst (readBytes s w)) = false.
Proof.
  intros Hin. apply list_elem_of_lookup_total_1 in Hin as (k & Hk & Hzero).
  rewrite captureLoop_length in Hk. unfold readBytes.
  destruct (captureLoop DHT22_NUM_DATA_BITS s (noInterrupts w)) as [cs w1].
  cbn [fst] in Hzero.
  pose proof (decodeLoop_zero cs DHT22_NUM_DATA_BITS 0 [0; 0; 0; 0; 0] k) as Hdec.
  destruct (decodeLoop DHT22_NUM_DATA_BITS 0 cs [0; 0; 0; 0; 0]) as [ok data].
  cbn [fst] in *. apply Hdec; [|exact Hzero].
  change DHT22_NUM_DATA_BITS with 40%nat in *. lia.
Qed.

Lemma attemptSamples_zero s w :
  0 ∈ attemptSamples s w ->
  fst (generateStart s w) = false
  \/ fst (generateStart s w) = true
     /\ fst (fst (readBytes s (snd (generateStart s w)))) = false.
Proof.
  unfold attemptSamples, generateStart.
  destruct (measurePulseWidth LOW s (startScript w)) as [lo w1].
  destruct (Z.eqb_spec lo 0) as [|Hlo]; [left; reflexivity|].
  destruct (measurePulseWidth HIGH s w1) as [hi w2].
  destruct (Z.eqb_spec hi 0) as [|Hhi]; [left; reflexivity|].
  intros Hin. right. split; [reflexivity|]. cbn [snd].
  apply readBytes_zero_sample.
  apply elem_of_cons in Hin as [Hin|Hin]; [congruence|].
  apply elem_of_cons in Hin as [Hin|Hin]; [congruence|]. exact Hin.
Qed.

(** The measurements depend on the object through [_maxCycles] alone. *)
Lemma captureLoop_maxCycles s s' :
  _maxCycles s = _maxCycles s' ->
  forall pairs w, captureLoop pairs s w = captureLoop pairs s' w.
Proof.
  intros Hmax. induction pairs as [|pairs IH]; intros w; [reflexivity|].
  cbn [captureLoop]. unfold measurePulseWidth. rewrite Hmax.
  destruct (pulseLoop _ LOW _ 0 w) as [lo w1].
  destruct (pulseLoop _ HIGH _ 0 w1) as [hi w2].
  rewrite IH. reflexivity.
Qed.

Lemma attemptSamples_set_status b s w :
  attemptSamples (set_status b s) w = attemptSamples s w.
Proof.
  unfold attemptSamples, measurePulseWidth. cbn [_maxCycles set_status].
  destruct (pulseLoop _ LOW _ 0 (startScript w)) as [lo w1].
  destruct (lo =? 0); [reflexivity|].
  destruct (pulseLoop _ HIGH _ 0 w1) as [hi w2].
  destruct (hi =? 0); [reflexivity|].
  rewrite (captureLoop_maxCycles (set_status b s) s eq_refl). reflexivity.
Qed.

Lemma attempt_failed_start s w :
  fst (generateStart (set_status true s) w) = false ->
  _statusLastMeasurement (fst (attempt s w)) = false.
Proof.
  intros Hstart. unfold attempt.
  destruct (generateStart (set_status true s) w) as [started w1].
  cbn [fst] in Hstart. subst started. reflexivity.
Qed.

Lemma attempt_failed_bytes s w :
  fst (generateStart (set_status true s) w) = true ->
  fst (fst (readBytes (set_status true s)
              (snd (generateStart (set_status true s) w)))) = false ->
  _statusLastMeasurement (fst (attempt s w)) = false.
Proof.
  intros Hstart Hbytes. unfold attempt.
  destruct (generateStart (set_status true s) w) as [started w1].
  cbn [fst snd] in *. subst started. cbn.
  destruct (readBytes (set_status true s) w1) as [[ok s2] w2].
  cbn [fst] in Hbytes. subst ok. reflexivity.
Qed.

(** C9: when one of the pulse measurements of an attempt returns 0, in the
    start condition or among the 80 data samples, [generateStart] or
    [readBytes] returns false and the attempt ends with the status failed;
    the retry loop then goes on with the next attempt when the incremented
    counter still passes the loop test, and otherwise ends, the status
    failed. *)
Theorem pulse_timeout_fails_the_attempt :
  forall (fuel : nat) (s : DHT22) (w : World),
    0 ∈ attemptSamples s w ->
    _numReadRetries s <= _maxReadRetries s ->
    let s1 := fst (attempt s w) in
    let w1 := snd (attempt s w) in
    let next := set_retries (to_uint8 (_numReadRetries s + 1)) s1 in
    (fst (generateStart (set_status true s) w) = false
     \/ fst (fst (readBytes (set_status true s)
                    (snd (generateStart (set_status true s) w)))) = false)
    /\ _statusLastMeasurement s1 = false
    /\ _statusLastMeasurement next = false
    /\ retryLoop (S fuel) s w =
         if to_uint8 (_numReadRetries s + 1) <=? _maxReadRetries s
         then retryLoop fuel next w1
         else Some (next, w1).
Proof.
  intros fuel s w Hzero Hle s1 w1 next.
  rewrite <- (attemptSamples_set_status true) in Hzero.
  assert (Hfailed : _statusLastMeasurement s1 = false).
  { destruct (attemptSamples_zero _ _ Hzero) as [Hstart|[Hstart Hbytes]].
    - apply attempt_failed_start, Hstart.
    - apply attempt_failed_bytes; assumption. }
  pose proof (attempt_fields s w) as (_ & Hmax & Hnum & _). fold s1 in Hmax, Hnum.
  split; [|split; [exact Hfailed|split; [exact Hfailed|]]].
  - destruct (attemptSamples_zero _ _ Hzero) as [Hstart|[_ Hbytes]]; auto.
  - rewrite retryLoop_step by exact Hle. fold s1 w1. rewrite Hfailed, Hnum. fold next.
    destruct (Z.leb_spec (to_uint8 (_numReadRetries s + 1)) (_maxReadRetries s)) as [|Hgt];
      [reflexivity|].
    apply retryLoop_exit. subst next. cbn. rewrite Hmax. exact Hgt.
Qed.

Lemma pulse_timeout_fails_the_attempt_witness :
  0 ∈ attemptSamples (Scenario.sensor 2 0) (Scenario.worldOf [])
  /\ _statusLastMeasurement
       (fst (attempt (Scenario.sensor 2 0) (Scenario.worldOf []))) = false.
Proof.
  assert (Hzero : 0 ∈ attemptSamples (Scenario.sensor 2 0) (Scenario.worldOf [])).
  { change (0 ∈ [0]). apply list_elem_of_singleton. reflexivity. }
  assert (Hle : _numReadRetries (Scenario.sensor 2 0)
                <= _maxReadRetries (Scenario.sensor 2 0))
    by (vm_compute; discriminate).
  split; [exact Hzero|].
  exact (proj1 (proj2 (pulse_timeout_fails_the_attempt 0
                         (Scenario.sensor 2 0) (Scenario.worldOf []) Hzero Hle))).
Defined.

(** ** The bound on the retries *)

(** Below 255 the counter can pass the bound, and the loop is left after at
    most [_maxReadRetries + 1] attempts. *)
Lemma retryLoop_bounded fuel : forall s w,
  0 <= _numReadRetries s <= _maxReadRetries s ->
  _maxReadRetries s < 255 ->
  (Z.to_nat (_maxReadRetries s - _numReadRetries s) < fuel)%nat ->
  exists s' w',
    retryLoop fuel s w = Some (s', w')
    /\ _maxReadRetries s' = _maxReadRetries s
    /\ (_statusLastMeasurement s' = true
        /\ _numReadRetries s <= _numReadRetries s' <= _maxReadRetries s
        \/ _statusLastMeasurement s' = false
           /\ _numReadRetries s' = _maxReadRetries s + 1).
Proof.
  induction fuel as [|fuel IH]; intros s w Hn Hmax Hfuel; [lia|].
  rewrite retryLoop_step by lia.
  pose proof (attempt_fields s w) as (_ & Hm & Hr & _).
  destruct (attempt s w) as [s1 w1]. cbn [fst snd] in *.
  destruct (_statusLastMeasurement s1) eqn:Hst.
  - exists s1, w1. split; [reflexivity|]. split; [exact Hm|]. left. split; [exact Hst|lia].
  - rewrite Hr.
    assert (Hwrap : to_uint8 (_numReadRetries s + 1) = _numReadRetries s + 1)
      by (apply to_uint8_id; unfold is_uint8; lia).
    rewrite Hwrap.
    destruct (Z.eq_dec (_numReadRetries s) (_maxReadRetries s)) as [Heq|Hne].
    + rewrite retryLoop_exit by (cbn; lia).
      eexists _, _. split; [reflexivity|]. cbn. split; [exact Hm|]. right. split; [exact Hst|lia].
    + destruct (IH (set_retries (_numReadRetries s + 1) s1) w1)
        as (s' & w' & Hloop & Hm' & Hcases); cbn; try lia.
      exists s', w'. split; [exact Hloop|]. cbn in Hm', Hcases.
      split; [congruence|]. rewrite Hm in Hcases. intuition lia.
Qed.

(** With fewer than 255 retries configured, [readSensorData] returns after at
    most [_maxReadRetries + 1] attempts, with the timestamp of its start
    stored and the retry count at most [_maxReadRetries]; when it returns
    false the count is [_maxReadRetries] and the value queries give the
    invalid value. *)
Lemma readSensorData_bounded s w :
  0 <= _maxReadRetries s < 255 ->
  exists ok s' w',
    readSensorData (Z.to_nat (_maxReadRetries s) + 1) s w = Some (ok, s', w')
    /\ ok = _statusLastMeasurement s'
    /\ _lastMeasurementTimestamp s' = millis w
    /\ 0 <= getNumRetriesLastConversion s' <= _maxReadRetries s
    /\ (ok = false ->
        getNumRetriesLastConversion s' = _maxReadRetries s
        /\ readTemperature s' = (invalid, s')
        /\ readHumidity s' = (invalid, s')).
Proof.
  intros Hmax. unfold readSensorData.
  destruct (retryLoop_bounded (Z.to_nat (_maxReadRetries s) + 1)
              (set_retries 0 (set_timestamp (millis w) s)) w)
    as (s1 & w1 & Hloop & Hm & Hcases); cbn; try lia.
  rewrite Hloop. cbn in Hm, Hcases.
  pose proof (retryLoop_fields _ _ _ _ _ Hloop) as [Ht _]. cbn in Ht.
  eexists _, _, _. split; [reflexivity|]. cbn.
  split; [reflexivity|]. split; [exact Ht|].
  unfold getNumRetriesLastConversion. cbn. rewrite Hm.
  split; [destruct Hcases as [[_ Hn]|[_ Hn]]; lia|].
  intros Hfalse. unfold readTemperature, readHumidity. cbn. rewrite Hfalse. cbn.
  split; [|split; reflexivity].
  destruct Hcases as [[Hs _]|[_ Hn]]; [congruence | lia].
Qed.

(** On a line that never goes LOW the start condition times out at once. *)
Lemma attempt_dead_line s w :
  (forall k, line w k = HIGH) ->
  attempt s w = (set_status false s, snd (digitalRead (startScript w))).
Proof.
  intros Hdead. unfold attempt, generateStart, measurePulseWidth.
  rewrite pulseLoop_other_level by (cbn; rewrite Hdead; discriminate).
  reflexivity.
Qed.

(** With 255 retries configured the 8-bit counter never passes the bound:
    on a dead line no number of attempts leaves the loop. *)
Lemma retryLoop_255_dead_line fuel : forall s w,
  (forall k, line w k = HIGH) ->
  _maxReadRetries s = 255 ->
  _numReadRetries s <= 255 ->
  retryLoop fuel s w = None.
Proof.
  induction fuel as [|fuel IH]; intros s w Hdead Hmax Hn.
  - cbn [retryLoop]. destruct (Z.leb_spec (_numReadRetries s) (_maxReadRetries s));
      [reflexivity | lia].
  - rewrite retryLoop_step by lia. rewrite attempt_dead_line by exact Hdead.
    cbn [fst snd set_status _statusLastMeasurement].
    apply IH; cbn; [exact Hdead | exact Hmax |].
    pose proof (to_uint8_range (_numReadRetries s + 1)) as Hr. unfold is_uint8 in Hr. lia.
Qed.

(** C6, where the code departs from it: on an object set up with
    [begin(255, 0)] whose data line stays HIGH (no sensor answers), every
    attempt fails and the 8-bit retry counter wraps from 255 to 0 under the
    loop test [_numReadRetries <= _maxReadRetries]; no number of attempts
    lets [available] return. *)
Theorem available_255_retries_never_returns :
  forall fuel : nat,
    available fuel (Scenario.sensor 255 0) (Scenario.worldOf []) = None.
Proof.
  intros fuel. unfold available.
  replace (to_uint32 _ <? 2000) with false by (vm_compute; reflexivity).
  unfold readSensorData.
  rewrite retryLoop_255_dead_line; [reflexivity | | reflexivity | cbn; lia].
  intros k. cbn. destruct k; reflexivity.
Qed.

(** ** The sample averager *)

Lemma runningSumFits_total l : forall acc,
  runningSumFits acc l = true -> is_int16 acc -> is_int16 (acc + total l).
Proof.
  induction l as [|x l IH]; intros acc Hfits Hacc; cbn in *.
  - rewrite Z.add_0_r. exact Hacc.
  - apply andb_true_iff in Hfits as [Hx Hrest].
    apply andb_true_iff in Hx as [Hlo Hhi].
    apply Z.leb_le in Hlo, Hhi.
    rewrite Z.add_assoc. apply IH; [exact Hrest|].
    unfold is_int16. lia.
Qed.

Lemma sumLoop_exact (samples : list Z) : forall n i acc,
  (i + n <= length samples)%nat ->
  runningSumFits acc (take n (drop i samples)) = true ->
  sumLoop n i samples acc = acc + total (take n (drop i samples)).
Proof.
  induction n as [|n IH]; intros i acc Hlen Hfits.
  - rewrite take_0. cbn. lia.
  - assert (Hi : samples !! i = Some (samples !!! i))
      by (apply list_lookup_lookup_total_lt; lia).
    rewrite (drop_S _ _ _ Hi) in Hfits |- *. cbn in Hfits |- *.
    apply andb_true_iff in Hfits as [Hx Hrest].
    apply andb_true_iff in Hx as [Hlo Hhi].
    apply Z.leb_le in Hlo, Hhi.
    rewrite to_int16_id by (unfold is_int16; lia).
    rewrite IH by (assumption || lia). unfold total. lia.
Qed.

Lemma quot_nonneg_bound a b : 0 <= a -> 1 <= b -> 0 <= Z.quot a b <= a.
Proof.
  intros Ha Hb. pose proof (Z.quot_rem' a b) as Hqr.
  pose proof (Z.rem_bound_pos a b Ha ltac:(lia)). nia.
Qed.

Lemma quot_fits a b : is_int16 a -> 1 <= b -> is_int16 (Z.quot a b).
Proof.
  unfold is_int16. intros Ha Hb.
  destruct (Z.le_gt_cases 0 a) as [Hpos|Hneg].
  - pose proof (quot_nonneg_bound a b Hpos Hb). lia.
  - pose proof (quot_nonneg_bound (- a) b ltac:(lia) Hb) as Hq.
    rewrite Z.quot_opp_l in Hq by lia. lia.
Qed.

Lemma average_exact numSamples samples index num value :
  bufferOk numSamples samples index num ->
  let samples' := <[Z.to_nat (index mod numSamples) := value]> samples in
  let num' := Z.min (num + 1) numSamples in
  runningSumFits 0 (take (Z.to_nat num') samples') = true ->
  average numSamples samples index num value
  = (Z.quot (total (take (Z.to_nat num') samples')) num',
     (samples', to_uint8 (index + 1), num')).
Proof.
  intros (HN & Hlen & Hidx & Hnum) samples' num' Hfits. unfold average.
  assert (Hnum' : (if num <? numSamples then to_uint8 (num + 1) else num) = num').
  { subst num'. destruct (Z.ltb_spec num numSamples).
    - rewrite to_uint8_id by (unfold is_uint8; lia). lia.
    - lia. }
  rewrite Hnum'. fold samples'.
  rewrite sumLoop_exact; rewrite ?drop_0; cbn [Nat.add];
    [| subst samples'; rewrite length_insert; subst num'; lia | exact Hfits].
  rewrite Z.add_0_l, to_int16_id; [reflexivity|].
  apply quot_fits; [|subst num'; lia].
  apply (runningSumFits_total _ 0 Hfits). unfold is_int16. lia.
Qed.

Lemma cursor_advances numSamples index :
  0 < numSamples -> 0 <= index < 255 ->
  to_uint8 (index + 1) mod numSamples = (index mod numSamples + 1) mod numSamples.
Proof.
  intros HN Hidx. rewrite to_uint8_id by (unfold is_uint8; lia).
  rewrite Z.add_mod_idemp_l by lia. reflexivity.
Qed.

(** C4, as the code has it: with a sample buffer of [N > 0] entries and a
    successful read cached, a value query whose raw value is not -1 writes
    the raw value at position [index mod N], increments the 8-bit index (so
    the position moves on by one modulo [N] while the index is below 255),
    raises the count of valid entries by one up to [N], and returns the exact
    sum of the valid entries divided by their count, truncated toward zero,
    provided the running sums fit the 16-bit accumulator.  A raw value of -1
    is returned as it is, the buffer, index and count left alone. *)
Theorem averaged_query_folds_raw_value :
  forall s : DHT22,
    _statusLastMeasurement s = true ->
    (forall samples,
       _temperatureSamples s = Some samples ->
       let raw := decodeTemperature (_data s) in
       (raw = -1 -> readTemperature s = (raw, s))
       /\ (raw <> -1 ->
           bufferOk (_numSamples s) samples
             (_temperatureSampleIndex s) (_numTemperatureSamples s) ->
           let samples' :=
             <[Z.to_nat (_temperatureSampleIndex s mod _numSamples s) := raw]> samples in
           let num' := Z.min (_numTemperatureSamples s + 1) (_numSamples s) in
           runningSumFits 0 (take (Z.to_nat num') samples') = true ->
           readTemperature s
           = (Z.quot (total (take (Z.to_nat num') samples')) num',
              set_temperatureAverage samples'
                (to_uint8 (_temperatureSampleIndex s + 1)) num' s)
           /\ (_temperatureSampleIndex s < 255 ->
               to_uint8 (_temperatureSampleIndex s + 1) mod _numSamples s
               = (_temperatureSampleIndex s mod _numSamples s + 1) mod _numSamples s)))
    /\
    (forall samples,
       _humiditySamples s = Some samples ->
       let raw := decodeHumidity (_data s) in
       (raw = -1 -> readHumidity s = (raw, s))
       /\ (raw <> -1 ->
           bufferOk (_numSamples s) samples
             (_humiditySampleIndex s) (_numHumiditySamples s) ->
           let samples' :=
             <[Z.to_nat (_humiditySampleIndex s mod _numSamples s) := raw]> samples in
           let num' := Z.min (_numHumiditySamples s + 1) (_numSamples s) in
           runningSumFits 0 (take (Z.to_nat num') samples') = true ->
           readHumidity s
           = (Z.quot (total (take (Z.to_nat num') samples')) num',
              set_humidityAverage samples'
                (to_uint8 (_humiditySampleIndex s + 1)) num' s)
           /\ (_humiditySampleIndex s < 255 ->
               to_uint8 (_humiditySampleIndex s + 1) mod _numSamples s
               = (_humiditySampleIndex s mod _numSamples s + 1) mod _numSamples s))).
Proof.
  intros s Hok. split; intros samples Hbuf raw; split.
  - intros Hraw. unfold readTemperature. rewrite Hok, Hbuf. cbn [negb].
    fold raw. rewrite Hraw. reflexivity.
  - intros Hraw Hwf samples' num' Hfits. split.
    + unfold readTemperature. rewrite Hok, Hbuf. cbn [negb]. fold raw.
      destruct (Z.eqb_spec raw (Z.lnot 0)) as [E|_]; [exfalso; apply Hraw; exact E|].
      cbn [negb]. rewrite (average_exact _ _ _ _ raw Hwf Hfits). reflexivity.
    + intros Hidx. destruct Hwf as (HN & _ & Hi & _). apply cursor_advances; lia.
  - intros Hraw. unfold readHumidity. rewrite Hok, Hbuf. cbn [negb].
    fold raw. rewrite Hraw. reflexivity.
  - intros Hraw Hwf samples' num' Hfits. split.
    + unfold readHumidity. rewrite Hok, Hbuf. cbn [negb]. fold raw.
      destruct (Z.eqb_spec raw (Z.lnot 0)) as [E|_]; [exfalso; apply Hraw; exact E|].
      cbn [negb]. rewrite (average_exact _ _ _ _ raw Hwf Hfits). reflexivity.
    + intros Hidx. destruct Hwf as (HN & _ & Hi & _). apply cursor_advances; lia.
Qed.

Lemma averaged_query_folds_raw_value_witness :
  _statusLastMeasurement
    (Scenario.stateOf (Scenario.secondRead 3 Scenario.warm Scenario.warmer)) = true
  /\ _temperatureSamples
       (Scenario.stateOf (Scenario.secondRead 3 Scenario.warm Scenario.warmer))
     = Some [100; 0; 0]
  /\ fst (readTemperature
            (Scenario.stateOf (Scenario.secondRead 3 Scenario.warm Scenario.warmer)))
     = 150.
Proof.
  set (s := Scenario.stateOf (Scenario.secondRead 3 Scenario.warm Scenario.warmer)).
  assert (Hok : _statusLastMeasurement s = true) by (vm_compute; reflexivity).
  assert (Hbuf : _temperatureSamples s = Some [100; 0; 0]) by (vm_compute; reflexivity).
  split; [exact Hok|]. split; [exact Hbuf|].
  pose proof (proj2 (proj1 (averaged_query_folds_raw_value s Hok) [100; 0; 0] Hbuf))
    as Hfold.
  cbv zeta in Hfold.
  assert (Hraw : decodeTemperature (_data s) <> -1) by (vm_compute; discriminate).
  assert (Hwf : bufferOk (_numSamples s) [100; 0; 0]
                  (_temperatureSampleIndex s) (_numTemperatureSamples s))
    by (vm_compute; repeat split; (reflexivity || discriminate)).
  destruct (Hfold Hraw Hwf ltac:(vm_compute; reflexivity)) as [Hread _].
  rewrite Hread. vm_compute. reflexivity.
Defined.

(** C4 as stated fails: after a read of 10.0 degrees that was queried and a
    second successful read of -0.1 degrees, with three samples configured,
    the query returns -1 and the object unchanged: the buffer still holds
    the first sample alone, index and count stay at 1, where the specification
    has -1 written at position 1, the count raised to 2 and the mean
    (100 - 1) / 2 = 49 returned. *)
Lemma raw_minus_one_bypasses_the_average :
  Scenario.outcome (Scenario.secondRead 3 Scenario.warm Scenario.justBelowZero)
  = Some true
  /\ decodeTemperature
       (_data (Scenario.stateOf
                 (Scenario.secondRead 3 Scenario.warm Scenario.justBelowZero))) = -1
  /\ _temperatureSamples
       (Scenario.stateOf (Scenario.secondRead 3 Scenario.warm Scenario.justBelowZero))
     = Some [100; 0; 0]
  /\ _temperatureSampleIndex
       (Scenario.stateOf (Scenario.secondRead 3 Scenario.warm Scenario.justBelowZero)) = 1
  /\ _numTemperatureSamples
       (Scenario.stateOf (Scenario.secondRead 3 Scenario.warm Scenario.justBelowZero)) = 1
  /\ readTemperature
       (Scenario.stateOf (Scenario.secondRead 3 Scenario.warm Scenario.justBelowZero))
     = (-1, Scenario.stateOf
              (Scenario.secondRead 3 Scenario.warm Scenario.justBelowZero)).
Proof. vm_compute. repeat split. Qed.

(** ** Repeated value queries *)

Lemma readTemperature_raw s :
  _statusLastMeasurement s = true ->
  _temperatureSamples s = None \/ decodeTemperature (_data s) = -1 ->
  readTemperature s = (decodeTemperature (_data s), s).
Proof.
  intros Hok Hraw. unfold readTemperature. rewrite Hok. cbn [negb].
  destruct (_temperatureSamples s) as [samples|]; [|reflexivity].
  destruct Hraw as [|Hraw]; [discriminate|]. rewrite Hraw. reflexivity.
Qed.

Lemma readHumidity_raw s :
  _statusLastMeasurement s = true ->
  _humiditySamples s = None \/ decodeHumidity (_data s) = -1 ->
  readHumidity s = (decodeHumidity (_data s), s).
Proof.
  intros Hok Hraw. unfold readHumidity. rewrite Hok. cbn [negb].
  destruct (_humiditySamples s) as [samples|]; [|reflexivity].
  destruct Hraw as [|Hraw]; [discriminate|]. rewrite Hraw. reflexivity.
Qed.

(** C5, as the code has it: after a successful read, with no sample buffer
    (averaging disabled) or with a raw value of -1, any number of calls of
    [readTemperature] (of [readHumidity]) in a row return the same value,
    the one decoded from the cached payload, and leave the object as it
    was. *)
Theorem repeated_queries_without_average_agree :
  forall (s : DHT22) (n : nat),
    _statusLastMeasurement s = true ->
    (_temperatureSamples s = None \/ decodeTemperature (_data s) = -1 ->
     queryTemperature n s = (repeat (decodeTemperature (_data s)) n, s))
    /\
    (_humiditySamples s = None \/ decodeHumidity (_data s) = -1 ->
     queryHumidity n s = (repeat (decodeHumidity (_data s)) n, s)).
Proof.
  intros s n Hok. split; intros Hraw; induction n as [|n IH]; try reflexivity.
  - cbn [queryTemperature]. rewrite (readTemperature_raw s Hok Hraw), IH. reflexivity.
  - cbn [queryHumidity]. rewrite (readHumidity_raw s Hok Hraw), IH. reflexivity.
Qed.

Lemma repeated_queries_without_average_agree_witness :
  _statusLastMeasurement (Scenario.stateOf Scenario.firstCall) = true
  /\ queryTemperature 3 (Scenario.stateOf Scenario.firstCall)
     = ([-25; -25; -25], Scenario.stateOf Scenario.firstCall)
  /\ queryHumidity 3 (Scenario.stateOf Scenario.firstCall)
     = ([550; 550; 550], Scenario.stateOf Scenario.firstCall).
Proof.
  assert (Hok : _statusLastMeasurement (Scenario.stateOf Scenario.firstCall) = true)
    by (vm_compute; reflexivity).
  split; [exact Hok|].
  destruct (repeated_queries_without_average_agree
              (Scenario.stateOf Scenario.firstCall) 3 Hok) as [Ht Hh].
  split.
  - rewrite Ht by (left; vm_compute; reflexivity). vm_compute. reflexivity.
  - rewrite Hh by (left; vm_compute; reflexivity). vm_compute. reflexivity.
Defined.

(** C5 as stated fails: with three samples configured, after a read of 10.0
    degrees that was queried once and a second successful read of 20.0
    degrees, two calls of [readTemperature] in a row return 150 and then
    166: each call writes the cached raw value into the buffer again. *)
Lemma repeated_averaged_queries_differ :
  Scenario.outcome (Scenario.secondRead 3 Scenario.warm Scenario.warmer) = Some true
  /\ fst (readTemperature
            (Scenario.stateOf (Scenario.secondRead 3 Scenario.warm Scenario.warmer)))
     = 150
  /\ fst (readTemperature
            (snd (readTemperature
                    (Scenario.stateOf
                       (Scenario.secondRead 3 Scenario.warm Scenario.warmer)))))
     = 166
  /\ _temperatureSamples
       (snd (readTemperature
               (snd (readTemperature
                       (Scenario.stateOf
                          (Scenario.secondRead 3 Scenario.warm Scenario.warmer))))))
     = Some [100; 200; 200].
Proof. vm_compute. repeat split. Qed.

(** * Further properties *)

(** ** The pulse timing reader, in full *)

Lemma digitalRead_advance w : snd (digitalRead w) = advance 1 w.
Proof. unfold digitalRead, advance. cbn. f_equal. lia. Qed.

Lemma advance_advance j k w : advance k (advance j w) = advance (j + k) w.
Proof. unfold advance. cbn. f_equal. lia. Qed.

Lemma pulseLoop_measures level maxCycles : forall n turns count w,
  0 <= count -> count + Z.of_nat n <= maxCycles -> maxCycles < 2 ^ 32 ->
  (n <= turns)%nat ->
  pulseOf level n w ->
  pulseLoop turns level maxCycles count w = (count + Z.of_nat n, advance (S n) w).
Proof.
  induction n as [|n IH]; intros turns count w Hc Hn Hmax Hturns [Hheld Hend].
  - rewrite Nat.add_0_r in Hend.
    rewrite pulseLoop_other_level by exact Hend.
    rewrite digitalRead_advance. f_equal. cbn. lia.
  - destruct turns as [|turns]; [lia|].
    cbn [pulseLoop digitalRead].
    pose proof (Hheld 0%nat ltac:(lia)) as H0. rewrite Nat.add_0_r in H0.
    rewrite H0, Bool.eqb_reflx.
    destruct (Z.leb_spec maxCycles count); [lia|].
    assert (Hwrap : to_uint32 (count + 1) = count + 1)
      by (unfold to_uint32; apply Z.mod_small; lia).
    rewrite Hwrap.
    rewrite IH; try lia.
    + f_equal; [lia|]. unfold advance. cbn. f_equal. lia.
    + split; cbn [line polls].
      * intros k Hk. replace (S (polls w) + k)%nat with (polls w + S k)%nat by lia.
        apply Hheld. lia.
      * replace (S (polls w) + n)%nat with (polls w + S n)%nat by lia. exact Hend.
Qed.

Lemma pulseLoop_timeout level maxCycles : forall turns count w,
  0 <= count <= maxCycles -> maxCycles < 2 ^ 32 ->
  turns = Z.to_nat (maxCycles - count) ->
  (forall k, (k <= turns)%nat -> line w (polls w + k) = level) ->
  pulseLoop turns level maxCycles count w = (0, advance (S turns) w).
Proof.
  induction turns as [|turns IH]; intros count w Hc Hmax Hturns Hheld.
  - cbn [pulseLoop digitalRead].
    rewrite <- (Hheld 0%nat), Nat.add_0_r, Bool.eqb_reflx by lia.
    destruct (Z.leb_spec maxCycles count); [|lia].
    f_equal. unfold advance. f_equal. lia.
  - cbn [pulseLoop digitalRead].
    pose proof (Hheld 0%nat ltac:(lia)) as H0. rewrite Nat.add_0_r in H0.
    rewrite H0, Bool.eqb_reflx.
    destruct (Z.leb_spec maxCycles count); [lia|].
    assert (Hwrap : to_uint32 (count + 1) = count + 1)
      by (unfold to_uint32; apply Z.mod_small; lia).
    rewrite Hwrap, IH; try lia.
    + f_equal. unfold advance. cbn. f_equal. lia.
    + intros k Hk. cbn [line polls].
      replace (S (polls w) + k)%nat with (polls w + S k)%nat by lia.
      apply Hheld. lia.
Qed.

(** X1: [measurePulseWidth] measures: when the line shows the level asked
    for at the next [n] reads and another level at the read after them, with
    [n] at most [_maxCycles], the result is [n]; the call has read the pin
    [n + 1] times, the last read being the first of the next pulse, and has
    done nothing else.  When the line holds the level for [_maxCycles + 1]
    reads the result is 0 after exactly those reads. *)
Theorem measurePulseWidth_measures :
  forall (level : bool) (s : DHT22) (w : World) (n : nat),
    0 <= _maxCycles s < 2 ^ 32 ->
    (Z.of_nat n <= _maxCycles s ->
     pulseOf level n w ->
     measurePulseWidth level s w = (Z.of_nat n, advance (S n) w))
    /\
    ((forall k, (k <= Z.to_nat (_maxCycles s))%nat -> line w (polls w + k) = level) ->
     measurePulseWidth level s w = (0, advance (S (Z.to_nat (_maxCycles s))) w)).
Proof.
  intros level s w n Hmax. unfold measurePulseWidth. split.
  - intros Hn Hpulse.
    rewrite (pulseLoop_measures level (_maxCycles s) n) by (assumption || lia).
    reflexivity.
  - intros Hheld. apply pulseLoop_timeout; try lia. exact Hheld.
Qed.

Lemma pulseLoop_bounds level maxCycles : forall turns count w,
  0 <= count <= maxCycles -> maxCycles < 2 ^ 32 ->
  turns = Z.to_nat (maxCycles - count) ->
  exists k,
    (1 <= k <= S turns)%nat
    /\ snd (pulseLoop turns level maxCycles count w) = advance k w
    /\ (fst (pulseLoop turns level maxCycles count w) = 0
        \/ count <= fst (pulseLoop turns level maxCycles count w) <= maxCycles
           /\ fst (pulseLoop turns level maxCycles count w)
              = count + Z.of_nat k - 1).
Proof.
  induction turns as [|turns IH]; intros count w Hc Hmax Hturns;
    cbn [pulseLoop digitalRead];
    (destruct (Bool.eqb (line w (polls w)) level);
     [|exists 1%nat; cbn [fst snd]; split; [lia|];
       split; [apply digitalRead_advance | right; lia]]).
  - destruct (Z.leb_spec maxCycles count); [|lia].
    exists 1%nat. cbn [fst snd]. split; [lia|].
    split; [apply digitalRead_advance | left; reflexivity].
  - destruct (Z.leb_spec maxCycles count); [lia|].
    assert (Hwrap : to_uint32 (count + 1) = count + 1)
      by (unfold to_uint32; apply Z.mod_small; lia).
    rewrite Hwrap.
    destruct (IH (count + 1)
                (mkWorld (micros w) (line w) (S (polls w)) (pinMode w) (pinOut w) (irq w)))
      as (k & Hk & Hw & Hr); try lia.
    exists (S k). split; [lia|]. split.
    + rewrite Hw. unfold advance. cbn. f_equal. lia.
    + destruct Hr as [Hr|[Hr Hr']]; [left; exact Hr | right; lia].
Qed.

(** X2: whatever the line does, [measurePulseWidth] returns after at least
    one and at most [_maxCycles + 1] reads of the pin, with a result between
    0 and [_maxCycles]; a result other than 0 is the number of reads less
    one; clock, pin mode, output level and interrupt flag are untouched. *)
Theorem measurePulseWidth_is_bounded :
  forall (level : bool) (s : DHT22) (w : World),
    0 <= _maxCycles s < 2 ^ 32 ->
    exists k : nat,
      (1 <= k <= Z.to_nat (_maxCycles s) + 1)%nat
      /\ snd (measurePulseWidth level s w) = advance k w
      /\ 0 <= fst (measurePulseWidth level s w) <= _maxCycles s
      /\ (fst (measurePulseWidth level s w) <> 0 ->
          fst (measurePulseWidth level s w) = Z.of_nat k - 1).
Proof.
  intros level s w Hmax. unfold measurePulseWidth.
  destruct (pulseLoop_bounds level (_maxCycles s) (Z.to_nat (_maxCycles s)) 0 w)
    as (k & Hk & Hw & Hr); try lia.
  exists k. split; [lia|]. split; [exact Hw|].
  destruct Hr as [Hr|[Hr Hr']]; split; lia.
Qed.

Lemma readsAtMost_refl w : readsAtMost 0 w w.
Proof. split; [reflexivity | lia]. Qed.

Lemma readsAtMost_trans a b w1 w2 w3 :
  readsAtMost a w1 w2 -> readsAtMost b w2 w3 -> readsAtMost (a + b) w1 w3.
Proof. intros [Hl1 Hp1] [Hl2 Hp2]. split; [congruence | lia]. Qed.

Lemma readsAtMost_weaken a b w w' :
  (a <= b)%nat -> readsAtMost a w w' -> readsAtMost b w w'.
Proof. intros Hle [Hl Hp]. split; [exact Hl | lia]. Qed.

Lemma measurePulseWidth_reads level s w :
  0 <= _maxCycles s < 2 ^ 32 ->
  readsAtMost (Z.to_nat (_maxCycles s) + 1) w (snd (measurePulseWidth level s w))
  /\ 0 <= fst (measurePulseWidth level s w) <= _maxCycles s.
Proof.
  intros Hmax.
  unfold measurePulseWidth.
  destruct (pulseLoop_bounds level (_maxCycles s) (Z.to_nat (_maxCycles s)) 0 w)
    as (k & Hk & Hw & Hr); try lia.
  rewrite Hw. split; [split; [reflexivity | cbn; lia] | lia].
Qed.

(** ** What a read does to the world *)

Lemma measurePulseWidth_advance level s w :
  0 <= _maxCycles s < 2 ^ 32 ->
  exists k, (1 <= k <= Z.to_nat (_maxCycles s) + 1)%nat
            /\ snd (measurePulseWidth level s w) = advance k w.
Proof.
  intros Hmax. unfold measurePulseWidth.
  destruct (pulseLoop_bounds level (_maxCycles s) (Z.to_nat (_maxCycles s)) 0 w)
    as (k & Hk & Hw & _); try lia.
  exists k. split; [lia | exact Hw].
Qed.

Lemma captureLoop_advance s : forall pairs w,
  0 <= _maxCycles s < 2 ^ 32 ->
  exists k, (2 * pairs <= k <= 2 * pairs * (Z.to_nat (_maxCycles s) + 1))%nat
            /\ snd (captureLoop pairs s w) = advance k w.
Proof.
  induction pairs as [|pairs IH]; intros w Hmax.
  - exists 0%nat. split; [lia|]. cbn. unfold advance. destruct w; cbn. f_equal. lia.
  - cbn [captureLoop].
    destruct (measurePulseWidth_advance LOW s w Hmax) as (k1 & Hk1 & Hw1).
    destruct (measurePulseWidth LOW s w) as [lo w1]. cbn [snd] in Hw1. subst w1.
    destruct (measurePulseWidth_advance HIGH s (advance k1 w) Hmax) as (k2 & Hk2 & Hw2).
    destruct (measurePulseWidth HIGH s (advance k1 w)) as [hi w2]. cbn [snd] in Hw2. subst w2.
    destruct (IH (advance k2 (advance k1 w)) Hmax) as (k3 & Hk3 & Hw3).
    destruct (captureLoop pairs s (advance k2 (advance k1 w))) as [rest w3].
    cbn [snd] in *. subst w3.
    exists (k1 + (k2 + k3))%nat. split; [nia|].
    rewrite !advance_advance. reflexivity.
Qed.

Lemma captureLoop_range s : forall pairs w,
  0 <= _maxCycles s < 2 ^ 32 ->
  Forall (fun c => 0 <= c <= _maxCycles s) (fst (captureLoop pairs s w)).
Proof.
  induction pairs as [|pairs IH]; intros w Hmax; [constructor|].
  cbn [captureLoop].
  pose proof (measurePulseWidth_reads LOW s w Hmax) as [_ Hlo].
  destruct (measurePulseWidth LOW s w) as [lo w1].
  pose proof (measurePulseWidth_reads HIGH s w1 Hmax) as [_ Hhi].
  destruct (measurePulseWidth HIGH s w1) as [hi w2].
  specialize (IH w2 Hmax). destruct (captureLoop pairs s w2) as [rest w3].
  cbn [fst] in *. repeat constructor; assumption || lia.
Qed.

Lemma generateStart_world s w :
  0 <= _maxCycles s < 2 ^ 32 ->
  exists k, (1 <= k <= 2 * (Z.to_nat (_maxCycles s) + 1))%nat
            /\ snd (generateStart s w) = advance k (startScript w).
Proof.
  intros Hmax. unfold generateStart.
  destruct (measurePulseWidth_advance LOW s (startScript w) Hmax) as (k1 & Hk1 & Hw1).
  destruct (measurePulseWidth LOW s (startScript w)) as [lo w1]. cbn [snd] in Hw1. subst w1.
  destruct (lo =? 0); [exists k1; split; [lia | reflexivity]|].
  destruct (measurePulseWidth_advance HIGH s (advance k1 (startScript w)) Hmax)
    as (k2 & Hk2 & Hw2).
  destruct (measurePulseWidth HIGH s (advance k1 (startScript w))) as [hi w2].
  cbn [snd] in Hw2. subst w2.
  exists (k1 + k2)%nat. split; [lia|].
  destruct (hi =? 0); cbn [snd]; apply advance_advance.
Qed.

Lemma readBytes_world s w :
  0 <= _maxCycles s < 2 ^ 32 ->
  exists k, (80 <= k <= 80 * (Z.to_nat (_maxCycles s) + 1))%nat
            /\ snd (readBytes s w) = interrupts (advance k w).
Proof.
  intros Hmax. unfold readBytes.
  destruct (captureLoop_advance s DHT22_NUM_DATA_BITS (noInterrupts w) Hmax)
    as (k & Hk & Hw).
  destruct (captureLoop DHT22_NUM_DATA_BITS s (noInterrupts w)) as [cs w1].
  cbn [snd] in Hw. subst w1.
  destruct (decodeLoop DHT22_NUM_DATA_BITS 0 cs [0; 0; 0; 0; 0]) as [ok data].
  exists k. split; [change DHT22_NUM_DATA_BITS with 40%nat in Hk; lia | reflexivity].
Qed.

Lemma attempt_world s w :
  0 <= _maxCycles s < 2 ^ 32 ->
  line (snd (attempt s w)) = line w
  /\ (polls w < polls (snd (attempt s w))
      <= polls w + 82 * (Z.to_nat (_maxCycles s) + 1))%nat
  /\ pinMode (snd (attempt s w)) = INPUT_PULLUP
  /\ irq (snd (attempt s w))
     = (if fst (generateStart (set_status true s) w) then true else irq w).
Proof.
  intros Hmax. unfold attempt.
  destruct (generateStart_world (set_status true s) w Hmax) as (k1 & Hk1 & Hw1).
  destruct (generateStart (set_status true s) w) as [started w1].
  cbn [fst snd] in *. subst w1. cbn [_maxCycles set_status] in Hk1.
  destruct started; cbn [_statusLastMeasurement set_status].
  - destruct (readBytes_world (set_status true s) (advance k1 (startScript w)) Hmax)
      as (k2 & Hk2 & Hw2).
    destruct (readBytes (set_status true s) (advance k1 (startScript w))) as [[ok s2] w2].
    cbn [snd] in *. subst w2. cbn [_maxCycles set_status] in Hk2.
    repeat split; cbn; lia.
  - repeat split; cbn; lia.
Qed.

(** X3: one attempt reads the pin at least once and at most
    [82 * (_maxCycles + 1)] times and every pulse width it measures lies
    between 0 and [_maxCycles]; it leaves the pin in input mode with pull-up;
    and when the start condition was acknowledged it ends with interrupts
    enabled, also when they were disabled before and also when the bytes
    could not be read, while a failed start leaves the interrupt flag as it
    was. *)
Theorem attempt_is_bounded :
  forall (s : DHT22) (w : World),
    0 <= _maxCycles s < 2 ^ 32 ->
    let w' := snd (attempt s w) in
    line w' = line w
    /\ (polls w < polls w' <= polls w + 82 * (Z.to_nat (_maxCycles s) + 1))%nat
    /\ Forall (fun c => 0 <= c <= _maxCycles s) (attemptSamples s w)
    /\ pinMode w' = INPUT_PULLUP
    /\ irq w' = (if fst (generateStart (set_status true s) w) then true else irq w).
Proof.
  intros s w Hmax w'.
  destruct (attempt_world s w Hmax) as (Hline & Hpolls & Hmode & Hirq).
  split; [exact Hline|]. split; [exact Hpolls|].
  split; [|split; [exact Hmode | exact Hirq]].
  unfold attemptSamples.
  pose proof (measurePulseWidth_reads LOW s (startScript w) Hmax) as [_ Hlo].
  destruct (measurePulseWidth LOW s (startScript w)) as [lo w1]. cbn [fst] in Hlo.
  destruct (lo =? 0); [repeat constructor; lia|].
  pose proof (measurePulseWidth_reads HIGH s w1 Hmax) as [_ Hhi].
  destruct (measurePulseWidth HIGH s w1) as [hi w2]. cbn [fst] in Hhi.
  destruct (hi =? 0); [repeat constructor; lia|].
  repeat (constructor; [lia|]). apply captureLoop_range, Hmax.
Qed.

(** ** A call of [available] as a whole *)

Lemma retryLoop_world fuel : forall s w s' w',
  0 <= _maxCycles s < 2 ^ 32 ->
  retryLoop fuel s w = Some (s', w') ->
  line w' = line w
  /\ (polls w <= polls w' <= polls w + fuel * (82 * (Z.to_nat (_maxCycles s) + 1)))%nat
  /\ (w' = w \/ pinMode w' = INPUT_PULLUP).
Proof.
  induction fuel as [|fuel IH]; intros s w s' w' Hmax.
  - cbn [retryLoop]. destruct (_ <=? _); [discriminate|].
    intros [= <- <-]. repeat split; try lia. left; reflexivity.
  - destruct (Z.le_gt_cases (_numReadRetries s) (_maxReadRetries s)) as [Hle|Hgt].
    + rewrite retryLoop_step by exact Hle.
      destruct (attempt_world s w Hmax) as (Hline & Hpolls & Hmode & _).
      pose proof (attempt_fields s w) as (_ & _ & _ & Hmc).
      destruct (attempt s w) as [s1 w1]. cbn [fst snd] in *.
      destruct (_statusLastMeasurement s1).
      * intros [= <- <-]. repeat split; try lia; auto.
      * intros Hloop. apply IH in Hloop; [|cbn; rewrite Hmc; exact Hmax].
        cbn [_maxCycles set_retries] in Hloop. rewrite Hmc in Hloop.
        destruct Hloop as (Hline' & Hpolls' & Hmode').
        split; [congruence|]. split; [nia|].
        right. destruct Hmode' as [->|Hm]; assumption.
    + rewrite retryLoop_exit by lia. intros [= <- <-].
      repeat split; try lia. left; reflexivity.
Qed.

Lemma readSensorData_world fuel s w ok s' w' :
  0 <= _maxCycles s < 2 ^ 32 ->
  readSensorData fuel s w = Some (ok, s', w') ->
  line w' = line w
  /\ (polls w <= polls w' <= polls w + fuel * (82 * (Z.to_nat (_maxCycles s) + 1)))%nat
  /\ (w' = w \/ pinMode w' = INPUT_PULLUP).
Proof.
  intros Hmc. unfold readSensorData.
  destruct (retryLoop fuel _ w) as [[s1 w1]|] eqn:Hloop; [|discriminate].
  intros [= _ _ <-]. apply retryLoop_world in Hloop; [exact Hloop | exact Hmc].
Qed.

(** X4: with fewer than 255 retries configured, a call of [available]
    always returns, after at most [_maxReadRetries + 1] attempts and at most
    [(_maxReadRetries + 1) * 82 * (_maxCycles + 1)] reads of the pin, and
    either has not touched the world at all or leaves the pin in input mode
    with pull-up.  When the interval has passed, so that the sensor is read,
    the call stores the time of its start, the retry count it leaves is at
    most [_maxReadRetries], and when it returns false that count is
    [_maxReadRetries] and both value queries return the invalid value, also
    when an earlier read had succeeded. *)
Theorem available_returns_within_bound :
  forall (s : DHT22) (w : World),
    0 <= _maxCycles s < 2 ^ 32 ->
    0 <= _maxReadRetries s < 255 ->
    exists ok s' w',
      available (Z.to_nat (_maxReadRetries s) + 1) s w = Some (ok, s', w')
      /\ line w' = line w
      /\ (polls w <= polls w'
          <= polls w + (Z.to_nat (_maxReadRetries s) + 1)
                       * (82 * (Z.to_nat (_maxCycles s) + 1)))%nat
      /\ (w' = w \/ pinMode w' = INPUT_PULLUP)
      /\ (2000 <= to_uint32 (millis w - _lastMeasurementTimestamp s) ->
          ok = _statusLastMeasurement s'
          /\ _lastMeasurementTimestamp s' = millis w
          /\ 0 <= getNumRetriesLastConversion s' <= _maxReadRetries s
          /\ (ok = false ->
              getNumRetriesLastConversion s' = _maxReadRetries s
              /\ readTemperature s' = (invalid, s')
              /\ readHumidity s' = (invalid, s'))).
Proof.
  intros s w Hmc Hmax. unfold available.
  destruct (Z.ltb_spec (to_uint32 (millis w - _lastMeasurementTimestamp s)) 2000)
    as [Hsoon|Hlate].
  - exists false, s, w. split; [reflexivity|].
    repeat split; try lia. left; reflexivity.
  - destruct (readSensorData_bounded s w Hmax) as (ok & s' & w' & Hread & Hfacts).
    exists ok, s', w'. split; [exact Hread|].
    destruct (readSensorData_world _ _ _ _ _ _ Hmc Hread) as (Hline & Hpolls & Hmode).
    split; [exact Hline|]. split; [exact Hpolls|]. split; [exact Hmode|].
    intros _. exact Hfacts.
Qed.

(** ** The interval across the wrap of the clock *)

Lemma elapsed_mod last elapsed :
  0 <= elapsed < 2 ^ 32 ->
  to_uint32 (to_uint32 (last + elapsed) - last) = elapsed.
Proof.
  intros He. unfold to_uint32.
  rewrite Zminus_mod_idemp_l.
  replace (last + elapsed - last) with elapsed by lia.
  apply Z.mod_small. exact He.
Qed.

(** X5: the interval test is right across the wrap of the 32-bit
    millisecond clock: when [elapsed] milliseconds (less than 2^32) have
    passed since the stored timestamp, so that [millis] reads the timestamp
    plus [elapsed] modulo 2^32, [available] declines without reading exactly
    when [elapsed < 2000], and otherwise reads the sensor. *)
Theorem interval_test_survives_clock_wrap :
  forall (fuel : nat) (s : DHT22) (w : World) (elapsed : Z),
    0 <= elapsed < 2 ^ 32 ->
    millis w = to_uint32 (_lastMeasurementTimestamp s + elapsed) ->
    (elapsed < 2000 -> available fuel s w = Some (false, s, w))
    /\ (2000 <= elapsed -> available fuel s w = readSensorData fuel s w).
Proof.
  intros fuel s w elapsed He Hnow. unfold available.
  rewrite Hnow, elapsed_mod by exact He.
  split; intros Hcmp; destruct (Z.ltb_spec elapsed 2000); (reflexivity || lia).
Qed.

(** X6: [begin] stores the timestamp 2^32 - 2000, so the first call of
    [available] after it reads the sensor at once, whatever the clock shows,
    unless [millis] is in its last 2000 ms before the wrap, where the call is
    declined. *)
Theorem first_call_after_begin :
  forall (fuel : nat) (maxReadRetries numSamples : Z)
         (blockT blockH : option (list Z)) (s : DHT22) (w0 w : World),
    let s1 := fst (begin maxReadRetries numSamples blockT blockH s w0) in
    (millis w < 2 ^ 32 - 2000 -> available fuel s1 w = readSensorData fuel s1 w)
    /\ (2 ^ 32 - 2000 <= millis w -> available fuel s1 w = Some (false, s1, w)).
Proof.
  intros fuel maxReadRetries numSamples blockT blockH s w0 w s1.
  assert (Hm : 0 <= millis w < 2 ^ 32)
    by (unfold millis, to_uint32; apply Z.mod_pos_bound; lia).
  assert (Hlast : _lastMeasurementTimestamp s1 = 2 ^ 32 - 2000) by reflexivity.
  unfold available. rewrite Hlast. unfold to_uint32.
  split; intros Hcmp.
  - replace ((millis w - (2 ^ 32 - 2000)) mod 2 ^ 32) with (millis w + 2000).
    + destruct (Z.ltb_spec (millis w + 2000) 2000); [lia | reflexivity].
    + apply Z.mod_unique with (q := -1); lia.
  - rewrite Z.mod_small by lia.
    destruct (Z.ltb_spec (millis w - (2 ^ 32 - 2000)) 2000); [reflexivity | lia].
Qed.

(** ** The retry count *)

Lemma turn_fields k : forall s w,
  0 <= _numReadRetries s -> _numReadRetries s + Z.of_nat k <= 255 ->
  _numReadRetries (fst (turn k s w)) = _numReadRetries s + Z.of_nat k
  /\ _maxReadRetries (fst (turn k s w)) = _maxReadRetries s.
Proof.
  induction k as [|k IH]; intros s w Hn Hk.
  - cbn. split; [lia | reflexivity].
  - cbn [turn]. destruct (IH s w Hn ltac:(lia)) as [Hr Hm].
    destruct (turn k s w) as [s1 w1]. cbn [fst] in *.
    pose proof (attempt_fields s1 w1) as (_ & Hm2 & Hr2 & _).
    destruct (attempt s1 w1) as [s2 w2]. cbn [fst] in *. cbn.
    split; [|congruence].
    rewrite Hr2, Hr. rewrite to_uint8_id by (unfold is_uint8; lia). lia.
Qed.

Lemma retryLoop_after_failures k : forall fuel s w,
  0 <= _numReadRetries s ->
  _numReadRetries s + Z.of_nat k <= 255 ->
  _numReadRetries s + Z.of_nat k <= _maxReadRetries s + 1 ->
  (forall j, (j < k)%nat ->
             _statusLastMeasurement (fst (attemptOfTurn j s w)) = false) ->
  retryLoop (k + fuel) s w = retryLoop fuel (fst (turn k s w)) (snd (turn k s w)).
Proof.
  induction k as [|k IH]; intros fuel s w Hn Hk Hmax Hfail; [reflexivity|].
  replace (S k + fuel)%nat with (k + S fuel)%nat by lia.
  rewrite IH; try lia; [|intros j Hj; apply Hfail; lia].
  destruct (turn_fields k s w Hn ltac:(lia)) as [Hr Hm].
  rewrite retryLoop_step by lia.
  specialize (Hfail k ltac:(lia)). unfold attemptOfTurn in Hfail.
  rewrite Hfail. cbn [turn].
  destruct (turn k s w) as [s1 w1]. cbn [fst snd].
  destruct (attempt s1 w1) as [s2 w2]. reflexivity.
Qed.

(** X7: the retry count is the number of failed attempts: when the first
    [k] attempts of a read fail and the next one succeeds, with [k] at most
    the configured maximum, [readSensorData] returns true with the payload
    of that attempt and [getNumRetriesLastConversion] gives [k].  This
    holds for every configured maximum, 255 included. *)
Theorem retry_count_is_number_of_failures :
  forall (s : DHT22) (w : World) (k fuel : nat),
    let s0 := set_retries 0 (set_timestamp (millis w) s) in
    Z.of_nat k <= _maxReadRetries s <= 255 ->
    (forall j, (j < k)%nat ->
               _statusLastMeasurement (fst (attemptOfTurn j s0 w)) = false) ->
    _statusLastMeasurement (fst (attemptOfTurn k s0 w)) = true ->
    exists s',
      readSensorData (S k + fuel) s w = Some (true, s', snd (attemptOfTurn k s0 w))
      /\ getNumRetriesLastConversion s' = Z.of_nat k
      /\ _data s' = _data (fst (attemptOfTurn k s0 w))
      /\ _statusLastMeasurement s' = true.
Proof.
  intros s w k fuel s0 Hk Hfail Hgood. unfold readSensorData. fold s0.
  assert (Hn0 : _numReadRetries s0 = 0) by reflexivity.
  assert (Hm0 : _maxReadRetries s0 = _maxReadRetries s) by reflexivity.
  replace (S k + fuel)%nat with (k + S fuel)%nat by lia.
  rewrite retryLoop_after_failures; try (rewrite ?Hn0, ?Hm0; lia); [|exact Hfail].
  destruct (turn_fields k s0 w ltac:(rewrite Hn0; lia) ltac:(rewrite Hn0; lia))
    as [Hr Hm].
  rewrite Hn0 in Hr. rewrite Hm0 in Hm.
  rewrite retryLoop_step by (rewrite Hr, Hm; lia).
  unfold attemptOfTurn in *. rewrite Hgood.
  pose proof (attempt_fields (fst (turn k s0 w)) (snd (turn k s0 w)))
    as (_ & Hm2 & Hr2 & _).
  destruct (attempt (fst (turn k s0 w)) (snd (turn k s0 w))) as [s2 w2].
  cbn [fst snd] in *.
  eexists. split; [|split; [|split]].
  - cbn. rewrite Hgood. reflexivity.
  - unfold getNumRetriesLastConversion. cbn. rewrite Hr2, Hm2, Hr, Hm. lia.
  - reflexivity.
  - exact Hgood.
Qed.

(** ** When an attempt succeeds *)

Lemma decodeLoop_nonzero cs : forall n i d,
  (forall k, (2 * i <= k < 2 * (i + n))%nat -> cs !!! k <> 0) ->
  fst (decodeLoop n i cs d) = true.
Proof.
  induction n as [|n IH]; intros i d Hnz; [reflexivity|].
  cbn [decodeLoop].
  destruct (Z.eqb_spec (cs !!! (2 * i)%nat) 0) as [E|_];
    [exfalso; apply (Hnz (2 * i)%nat); [lia | exact E]|].
  destruct (Z.eqb_spec (cs !!! (2 * i + 1)%nat) 0) as [E|_];
    [exfalso; apply (Hnz (2 * i + 1)%nat); [lia | exact E]|].
  cbn [orb]. apply IH. intros k Hk. apply Hnz. lia.
Qed.

Lemma readBytes_no_zero_sample s w :
  0 ∉ fst (captureLoop DHT22_NUM_DATA_BITS s (noInterrupts w)) ->
  fst (fst (readBytes s w)) = true.
Proof.
  intros Hnot. unfold readBytes.
  pose proof (captureLoop_length s DHT22_NUM_DATA_BITS (noInterrupts w)) as Hlen.
  destruct (captureLoop DHT22_NUM_DATA_BITS s (noInterrupts w)) as [cs w1].
  cbn [fst] in *.
  pose proof (decodeLoop_nonzero cs DHT22_NUM_DATA_BITS 0 [0; 0; 0; 0; 0]) as Hdec.
  destruct (decodeLoop DHT22_NUM_DATA_BITS 0 cs [0; 0; 0; 0; 0]) as [ok data].
  cbn [fst] in *. apply Hdec. intros k Hk E. apply Hnot. rewrite <- E.
  apply list_elem_of_lookup_total_2.
  change DHT22_NUM_DATA_BITS with 40%nat in *. lia.
Qed.

Lemma attempt_no_zero_sample s w :
  0 ∉ attemptSamples s w ->
  _statusLastMeasurement (fst (attempt s w))
  = negb (parityError (_data (fst (attempt s w)))).
Proof.
  rewrite <- (attemptSamples_set_status true).
  intros Hnot. unfold attempt.
  assert (Hstart : fst (generateStart (set_status true s) w) = true
                   /\ 0 ∉ fst (captureLoop DHT22_NUM_DATA_BITS (set_status true s)
                                  (noInterrupts (snd (generateStart (set_status true s) w))))).
  { revert Hnot. unfold attemptSamples, generateStart.
    destruct (measurePulseWidth LOW (set_status true s) (startScript w)) as [lo w1].
    destruct (Z.eqb_spec lo 0) as [->|_];
      [intros Hnot; exfalso; apply Hnot; apply list_elem_of_singleton; reflexivity|].
    destruct (measurePulseWidth HIGH (set_status true s) w1) as [hi w2].
    destruct (Z.eqb_spec hi 0) as [->|_].
    - intros Hnot. exfalso. apply Hnot. apply elem_of_cons. right.
      apply list_elem_of_singleton. reflexivity.
    - intros Hnot. split; [reflexivity|]. cbn [snd]. intros Hin. apply Hnot.
      apply elem_of_cons. right. apply elem_of_cons. right. exact Hin. }
  destruct Hstart as [Hstart Hcap].
  apply readBytes_no_zero_sample in Hcap.
  destruct (generateStart (set_status true s) w) as [started w1].
  cbn [fst snd] in *. subst started. cbn [_statusLastMeasurement set_status].
  destruct (readBytes_shape (set_status true s) w1) as (ok & cs & data & w2 & Hshape).
  rewrite Hshape in Hcap |- *. cbn [fst] in Hcap. subst ok. cbn.
  destruct (parityError data) eqn:Hp; cbn; rewrite Hp; reflexivity.
Qed.

(** X8: an attempt ends with the status good exactly when none of the pulse
    widths it measured is 0 and the five decoded bytes have the right
    parity byte: the three errors the code knows are the only ways to
    fail. *)
Theorem attempt_succeeds_iff :
  forall (s : DHT22) (w : World),
    _statusLastMeasurement (fst (attempt s w)) = true
    <-> (0 ∉ attemptSamples s w)
        /\ parityError (_data (fst (attempt s w))) = false.
Proof.
  intros s w. split.
  - intros Hgood. split; [|apply attempt_parity, Hgood].
    intros Hzero. rewrite <- (attemptSamples_set_status true) in Hzero.
    destruct (attemptSamples_zero _ _ Hzero) as [Hstart|[Hstart Hbytes]].
    + apply attempt_failed_start in Hstart. congruence.
    + apply (attempt_failed_bytes s w Hstart) in Hbytes. congruence.
  - intros [Hnot Hpar]. rewrite (attempt_no_zero_sample s w Hnot), Hpar. reflexivity.
Qed.

(** ** More on the decoding *)

Lemma lor_shift_byte a b :
  0 <= a -> is_uint8 b -> Z.lor (Z.shiftl a 8) b = 256 * a + b.
Proof.
  intros Ha Hb. unfold is_uint8 in Hb.
  rewrite Z.shiftl_mul_pow2 by lia. change (2 ^ 8) with 256.
  rewrite <- Z.add_nocarry_lor; [lia|].
  apply Z.bits_inj'. intros n Hn.
  rewrite Z.land_spec, Z.bits_0.
  destruct (Z.ltb_spec n 8) as [Hlt|Hge].
  - change 256 with (2 ^ 8). rewrite Z.mul_pow2_bits_low by lia. reflexivity.
  - replace (Z.testbit b n) with false; [apply andb_false_r|].
    symmetry. apply Z.bits_above_log2; [lia|].
    destruct (Z.eq_dec b 0) as [->|Hnz]; [simpl; lia|].
    apply Z.log2_lt_pow2; [lia|].
    apply Z.lt_le_trans with (2 ^ 8); [simpl; lia|].
    apply Z.pow_le_mono_r; lia.
Qed.

Lemma to_int16_wrap z :
  0 <= z < 65536 ->
  to_int16 z = if z <? 32768 then z else z - 65536.
Proof.
  intros Hz. unfold to_int16. destruct (Z.ltb_spec z 32768).
  - rewrite Z.mod_small by lia. lia.
  - rewrite <- (Z.mod_unique (z + 32768) 65536 1 (z - 32768)) by lia. lia.
Qed.

Lemma decodeHumidity_bytes b0 b1 b2 b3 b4 :
  is_uint8 b0 -> is_uint8 b1 ->
  decodeHumidity [b0; b1; b2; b3; b4] =
    if b0 <? 128 then 256 * b0 + b1 else 256 * b0 + b1 - 65536.
Proof.
  intros H0 H1. unfold decodeHumidity. cbn [lookup_total list_lookup_total].
  rewrite lor_shift_byte by (assumption || (unfold is_uint8 in H0; lia)).
  unfold is_uint8 in H0, H1. rewrite to_int16_wrap by lia.
  destruct (Z.ltb_spec b0 128), (Z.ltb_spec (256 * b0 + b1) 32768); lia.
Qed.

Lemma decodeTemperature_bytes b0 b1 b2 b3 b4 :
  is_uint8 b2 -> is_uint8 b3 ->
  decodeTemperature [b0; b1; b2; b3; b4] =
    if b2 <? 128 then 256 * b2 + b3 else - (256 * (b2 - 128) + b3).
Proof.
  intros H2 H3.
  rewrite (decodeTemperature_sign_magnitude [b0; b1; b2; b3; b4] H2 H3).
  cbn [lookup_total list_lookup_total]. unfold is_uint8 in H2.
  destruct (Z.ltb_spec b2 128).
  - replace (Z.testbit b2 7) with false.
    + rewrite Z.mod_small by lia. reflexivity.
    + symmetry. apply Z.testbit_false; [lia|].
      change (2 ^ 7) with 128. rewrite Z.div_small by lia. reflexivity.
  - replace (Z.testbit b2 7) with true.
    + rewrite <- (Z.mod_unique b2 128 1 (b2 - 128)) by lia. reflexivity.
    + symmetry. apply Z.testbit_true; [lia|].
      change (2 ^ 7) with 128.
      rewrite <- (Z.div_unique b2 128 1 (b2 - 128)) by lia. reflexivity.
Qed.

(** X9: the humidity is the 16-bit number in bytes 0 and 1 read as an
    [int16_t]: [256 * byte0 + byte1] while byte 0 is below 0x80, and that
    number less 65536, a negative value, from 0x80 on. *)
Theorem humidity_is_wrapped_16_bit :
  forall d : list Z,
    payload d ->
    decodeHumidity d =
      (if d !!! 0%nat <? 128
       then 256 * d !!! 0%nat + d !!! 1%nat
       else 256 * d !!! 0%nat + d !!! 1%nat - 65536)
    /\ (d !!! 0%nat < 128 -> 0 <= decodeHumidity d <= 32767)
    /\ (128 <= d !!! 0%nat -> -32768 <= decodeHumidity d < 0).
Proof.
  intros d Hd.
  destruct (payload_inv d Hd) as (b0 & b1 & b2 & b3 & b4 & -> & H0 & H1 & _).
  rewrite (decodeHumidity_bytes b0 b1 b2 b3 b4 H0 H1).
  cbn [lookup_total list_lookup_total]. unfold is_uint8 in H0, H1.
  destruct (Z.ltb_spec b0 128); repeat split; lia.
Qed.

(** X10: the only payloads whose decoded value is the invalid value -1 are
    the temperature bytes 0x80, 0x01 (-0.1 degrees) and the humidity bytes
    0xFF, 0xFF; and a decoded temperature always lies between -32767 and
    32767. *)
Theorem invalid_value_collisions :
  forall d : list Z,
    payload d ->
    (decodeTemperature d = invalid <-> d !!! 2%nat = 128 /\ d !!! 3%nat = 1)
    /\ (decodeHumidity d = invalid <-> d !!! 0%nat = 255 /\ d !!! 1%nat = 255)
    /\ -32767 <= decodeTemperature d <= 32767.
Proof.
  intros d Hd.
  destruct (payload_inv d Hd) as (b0 & b1 & b2 & b3 & b4 & -> & H0 & H1 & H2 & H3 & _).
  rewrite (decodeHumidity_bytes b0 b1 b2 b3 b4 H0 H1).
  rewrite (decodeTemperature_bytes b0 b1 b2 b3 b4 H2 H3).
  rewrite invalid_value. cbn [lookup_total list_lookup_total].
  unfold is_uint8 in *.
  destruct (Z.ltb_spec b2 128), (Z.ltb_spec b0 128); repeat split; lia.
Qed.

(** Scaling every sample by the same factor changes neither the zero test
    nor the comparison of a pair. *)
Lemma lookup_total_scaled c (cs : list Z) : forall i,
  (i < length cs)%nat -> (Z.mul c <$> cs) !!! i = c * cs !!! i.
Proof. intros i Hi. apply list_lookup_total_fmap. exact Hi. Qed.

Lemma decodeLoop_scaled c cs : forall n i d,
  0 < c -> (2 * (i + n) <= length cs)%nat ->
  decodeLoop n i (Z.mul c <$> cs) d = decodeLoop n i cs d.
Proof.
  induction n as [|n IH]; intros i d Hc Hlen; [reflexivity|].
  cbn [decodeLoop]. rewrite !lookup_total_scaled by lia.
  assert (Hz : forall x, (c * x =? 0) = (x =? 0)).
  { intros x. destruct (Z.eqb_spec x 0), (Z.eqb_spec (c * x) 0); try reflexivity; nia. }
  rewrite !Hz.
  destruct ((cs !!! (2 * i)%nat =? 0) || (cs !!! (2 * i + 1)%nat =? 0)); [reflexivity|].
  assert (Hs : storeBit i (c * cs !!! (2 * i)%nat) (c * cs !!! (2 * i + 1)%nat) d
               = storeBit i (cs !!! (2 * i)%nat) (cs !!! (2 * i + 1)%nat) d).
  { unfold storeBit.
    replace (c * cs !!! (2 * i + 1)%nat >? c * cs !!! (2 * i)%nat)
      with (cs !!! (2 * i + 1)%nat >? cs !!! (2 * i)%nat); [reflexivity|].
    rewrite !Z.gtb_ltb.
    destruct (Z.ltb_spec (cs !!! (2 * i)%nat) (cs !!! (2 * i + 1)%nat)),
             (Z.ltb_spec (c * cs !!! (2 * i)%nat) (c * cs !!! (2 * i + 1)%nat));
      try reflexivity; nia. }
  rewrite Hs. apply IH; [exact Hc | lia].
Qed.

(** X11: the decoding looks only at which of the two widths of a pair is
    the larger, and at zeros: multiplying all 80 samples by the same
    positive factor, as a faster or slower clock would, gives the same
    result and the same bytes. *)
Theorem decoding_is_scale_invariant :
  forall (c : Z) (cs : list Z),
    0 < c -> length cs = 80%nat ->
    decodeLoop DHT22_NUM_DATA_BITS 0 (Z.mul c <$> cs) [0; 0; 0; 0; 0]
    = decodeLoop DHT22_NUM_DATA_BITS 0 cs [0; 0; 0; 0; 0].
Proof.
  intros c cs Hc Hlen. apply decodeLoop_scaled; [exact Hc|].
  rewrite Hlen. change DHT22_NUM_DATA_BITS with 40%nat. lia.
Qed.

(** ** More on the averager *)

Lemma decodeTemperature_fits d : is_int16 (decodeTemperature d).
Proof. unfold decodeTemperature. destruct (negb _); apply to_int16_range. Qed.

Lemma decodeHumidity_fits d : is_int16 (decodeHumidity d).
Proof. apply to_int16_range. Qed.

Lemma take_constant (l : list Z) v : forall n,
  (n <= length l)%nat ->
  (forall i, (i < n)%nat -> l !!! i = v) ->
  take n l = replicate n v.
Proof.
  induction l as [|x l IH]; intros n Hn Hall.
  - cbn in Hn. replace n with 0%nat by lia. reflexivity.
  - destruct n as [|n]; [reflexivity|]. cbn [take replicate firstn]. f_equal.
    + exact (Hall 0%nat ltac:(lia)).
    + apply IH; [cbn in Hn; lia|]. intros i Hi. exact (Hall (S i) ltac:(lia)).
Qed.

Lemma total_replicate n v : total (replicate n v) = Z.of_nat n * v.
Proof.
  induction n as [|n IH]; [reflexivity|].
  change (total (replicate (S n) v)) with (v + total (replicate n v)).
  rewrite IH. lia.
Qed.

Lemma runningSumFits_replicate v : forall n acc,
  is_int16 acc -> is_int16 (acc + Z.of_nat n * v) ->
  runningSumFits acc (replicate n v) = true.
Proof.
  induction n as [|n IH]; intros acc Hacc Hend; [reflexivity|].
  cbn [replicate runningSumFits]. unfold is_int16 in *.
  assert (Hstep : -32768 <= acc + v <= 32767) by nia.
  rewrite IH; [|unfold is_int16; lia | unfold is_int16; lia].
  destruct (Z.leb_spec (-32768) (acc + v)), (Z.leb_spec (acc + v) 32767);
    try reflexivity; lia.
Qed.

Lemma average_constant numSamples samples index num value :
  bufferOk numSamples samples index num ->
  let samples' := <[Z.to_nat (index mod numSamples) := value]> samples in
  let num' := Z.min (num + 1) numSamples in
  (forall i, (i < Z.to_nat num')%nat -> samples' !!! i = value) ->
  is_int16 (num' * value) ->
  fst (average numSamples samples index num value) = value.
Proof.
  intros Hwf samples' num' Hall Hfits.
  pose proof Hwf as (HN & Hlen & Hidx & Hnum).
  assert (Htake : take (Z.to_nat num') samples' = replicate (Z.to_nat num') value).
  { apply take_constant; [|exact Hall].
    subst samples' num'. rewrite length_insert. lia. }
  assert (Hnat : Z.of_nat (Z.to_nat num') = num') by (subst num'; lia).
  rewrite (average_exact numSamples samples index num value Hwf).
  - cbn [fst]. fold samples' num'. rewrite Htake, total_replicate, Hnat.
    rewrite Z.mul_comm. apply Z.quot_mul. subst num'. lia.
  - fold samples' num'. rewrite Htake.
    apply runningSumFits_replicate; [unfold is_int16; lia|].
    rewrite Hnat, Z.add_0_l. exact Hfits.
Qed.

(** X12: when, once the raw value is written, all valid entries of the
    sample buffer equal it, a value query returns the raw value itself,
    provided the count times the value still fits the 16-bit accumulator.
    So a run of identical readings averages to that reading as long as
    their sum stays below 32768 in size. *)
Theorem constant_window_averages_to_raw :
  forall s : DHT22,
    _statusLastMeasurement s = true ->
    (forall samples,
       _temperatureSamples s = Some samples ->
       let raw := decodeTemperature (_data s) in
       let samples' :=
         <[Z.to_nat (_temperatureSampleIndex s mod _numSamples s) := raw]> samples in
       let num' := Z.min (_numTemperatureSamples s + 1) (_numSamples s) in
       bufferOk (_numSamples s) samples
         (_temperatureSampleIndex s) (_numTemperatureSamples s) ->
       (forall i, (i < Z.to_nat num')%nat -> samples' !!! i = raw) ->
       is_int16 (num' * raw) ->
       fst (readTemperature s) = raw)
    /\
    (forall samples,
       _humiditySamples s = Some samples ->
       let raw := decodeHumidity (_data s) in
       let samples' :=
         <[Z.to_nat (_humiditySampleIndex s mod _numSamples s) := raw]> samples in
       let num' := Z.min (_numHumiditySamples s + 1) (_numSamples s) in
       bufferOk (_numSamples s) samples
         (_humiditySampleIndex s) (_numHumiditySamples s) ->
       (forall i, (i < Z.to_nat num')%nat -> samples' !!! i = raw) ->
       is_int16 (num' * raw) ->
       fst (readHumidity s) = raw).
Proof.
  intros s Hok. split; intros samples Hbuf raw samples' num' Hwf Hall Hfits.
  - unfold readTemperature. rewrite Hok, Hbuf. cbn [negb]. fold raw.
    destruct (raw =? Z.lnot 0); [reflexivity|]. cbn [negb].
    pose proof (average_constant _ _ _ _ raw Hwf Hall Hfits) as Havg.
    destruct (average _ samples _ _ raw) as [mean [[b i] n]]. exact Havg.
  - unfold readHumidity. rewrite Hok, Hbuf. cbn [negb]. fold raw.
    destruct (raw =? Z.lnot 0); [reflexivity|]. cbn [negb].
    pose proof (average_constant _ _ _ _ raw Hwf Hall Hfits) as Havg.
    destruct (average _ samples _ _ raw) as [mean [[b i] n]]. exact Havg.
Qed.

Lemma average_single samples index num value :
  bufferOk 1 samples index num -> is_int16 value ->
  fst (average 1 samples index num value) = value.
Proof.
  intros Hwf Hv. pose proof Hwf as (_ & Hlen & _ & Hnum).
  apply average_constant; [exact Hwf | | ].
  - intros i Hi. rewrite Z.mod_1_r. replace i with 0%nat by lia.
    apply list_lookup_total_insert_eq. rewrite Hlen. cbn. lia.
  - replace (Z.min (num + 1) 1) with 1 by lia. rewrite Z.mul_1_l. exact Hv.
Qed.

(** X13: with one sample configured the averaged value is always the raw
    value of the cached payload, whatever the buffer held. *)
Theorem single_sample_average_is_raw :
  forall s : DHT22,
    _statusLastMeasurement s = true ->
    _numSamples s = 1 ->
    (forall samples,
       _temperatureSamples s = Some samples ->
       bufferOk 1 samples (_temperatureSampleIndex s) (_numTemperatureSamples s) ->
       fst (readTemperature s) = decodeTemperature (_data s))
    /\
    (forall samples,
       _humiditySamples s = Some samples ->
       bufferOk 1 samples (_humiditySampleIndex s) (_numHumiditySamples s) ->
       fst (readHumidity s) = decodeHumidity (_data s)).
Proof.
  intros s Hok HN. split; intros samples Hbuf Hwf.
  - unfold readTemperature. rewrite Hok, Hbuf, HN. cbn [negb].
    destruct (decodeTemperature (_data s) =? Z.lnot 0); [reflexivity|]. cbn [negb].
    pose proof (average_single _ _ _ _ Hwf (decodeTemperature_fits (_data s))) as Havg.
    destruct (average 1 samples _ _ _) as [mean [[b i] n]]. exact Havg.
  - unfold readHumidity. rewrite Hok, Hbuf, HN. cbn [negb].
    destruct (decodeHumidity (_data s) =? Z.lnot 0); [reflexivity|]. cbn [negb].
    pose proof (average_single _ _ _ _ Hwf (decodeHumidity_fits (_data s))) as Havg.
    destruct (average 1 samples _ _ _) as [mean [[b i] n]]. exact Havg.
Qed.


(** ** Entries that were never written *)

Lemma sumLoop_ext (l1 l2 : list Z) : forall n i acc,
  (forall j, (i <= j < i + n)%nat -> l1 !!! j = l2 !!! j) ->
  sumLoop n i l1 acc = sumLoop n i l2 acc.
Proof.
  induction n as [|n IH]; intros i acc Hagree; [reflexivity|].
  cbn [sumLoop]. rewrite (Hagree i) by lia.
  apply IH. intros j Hj. apply Hagree. lia.
Qed.

Lemma lookup_total_take_eq (l1 l2 : list Z) n j :
  take n l1 = take n l2 -> (j < n)%nat -> l1 !!! j = l2 !!! j.
Proof.
  intros Htake Hj.
  rewrite <- (lookup_total_take_lt l1 n j), <- (lookup_total_take_lt l2 n j) by lia.
  rewrite Htake. reflexivity.
Qed.

Lemma average_ignores_unwritten numSamples b1 b2 index num value :
  bufferOk numSamples b1 index num ->
  bufferInSync numSamples index num ->
  length b2 = length b1 ->
  take (Z.to_nat num) b2 = take (Z.to_nat num) b1 ->
  fst (average numSamples b2 index num value)
  = fst (average numSamples b1 index num value).
Proof.
  intros (HN & Hlen & Hidx & Hnum) Hsync Hlen2 Htake. unfold average. cbn [fst].
  f_equal. f_equal. apply sumLoop_ext. intros j Hj. cbn [Nat.add] in Hj.
  assert (Hp : (Z.to_nat (index mod numSamples) < length b1)%nat).
  { pose proof (Z.mod_pos_bound index numSamples ltac:(lia)). lia. }
  destruct (Nat.eq_dec j (Z.to_nat (index mod numSamples))) as [->|Hne].
  - rewrite !list_lookup_total_insert_eq by lia. reflexivity.
  - rewrite !list_lookup_total_insert_ne by lia.
    apply (lookup_total_take_eq b2 b1 (Z.to_nat num)); [exact Htake|].
    destruct (Z.ltb_spec num numSamples) as [Hlt|Hge].
    + rewrite to_uint8_id in Hj by (unfold is_uint8; lia).
      specialize (Hsync Hlt). subst index.
      rewrite Z.mod_small in Hne by lia. lia.
    + lia.
Qed.

(** X15: the mean never takes in an entry that no query has written: when
    the write index follows the count of valid entries while the buffer
    fills up (as it does from the constructor on), the value returned by a
    query is the same for any two buffers that agree on their valid
    entries, whatever the rest of the block from [malloc] holds. *)
Theorem mean_ignores_unwritten_entries :
  forall (s : DHT22) (other : list Z),
    (forall samples,
       _temperatureSamples s = Some samples ->
       bufferOk (_numSamples s) samples
         (_temperatureSampleIndex s) (_numTemperatureSamples s) ->
       bufferInSync (_numSamples s)
         (_temperatureSampleIndex s) (_numTemperatureSamples s) ->
       length other = length samples ->
       take (Z.to_nat (_numTemperatureSamples s)) other
       = take (Z.to_nat (_numTemperatureSamples s)) samples ->
       fst (readTemperature
              (set_temperatureAverage other (_temperatureSampleIndex s)
                 (_numTemperatureSamples s) s))
       = fst (readTemperature s))
    /\
    (forall samples,
       _humiditySamples s = Some samples ->
       bufferOk (_numSamples s) samples
         (_humiditySampleIndex s) (_numHumiditySamples s) ->
       bufferInSync (_numSamples s)
         (_humiditySampleIndex s) (_numHumiditySamples s) ->
       length other = length samples ->
       take (Z.to_nat (_numHumiditySamples s)) other
       = take (Z.to_nat (_numHumiditySamples s)) samples ->
       fst (readHumidity
              (set_humidityAverage other (_humiditySampleIndex s)
                 (_numHumiditySamples s) s))
       = fst (readHumidity s)).
Proof.
  intros s other. split; intros samples Hbuf Hwf Hsync Hlen Htake.
  - pose proof (average_ignores_unwritten _ _ other _ _ (decodeTemperature (_data s))
                  Hwf Hsync Hlen Htake) as Havg.
    unfold readTemperature.
    cbn [_statusLastMeasurement _data _numSamples _temperatureSamples
         _temperatureSampleIndex _numTemperatureSamples set_temperatureAverage].
    rewrite Hbuf.
    destruct (negb (_statusLastMeasurement s)); [reflexivity|].
    destruct (negb (decodeTemperature (_data s) =? Z.lnot 0)); [|reflexivity].
    destruct (average _ other _ _ _) as [m1 [[b1 i1] n1]].
    destruct (average _ samples _ _ _) as [m2 [[b2 i2] n2]]. exact Havg.
  - pose proof (average_ignores_unwritten _ _ other _ _ (decodeHumidity (_data s))
                  Hwf Hsync Hlen Htake) as Havg.
    unfold readHumidity.
    cbn [_statusLastMeasurement _data _numSamples _humiditySamples
         _humiditySampleIndex _numHumiditySamples set_humidityAverage].
    rewrite Hbuf.
    destruct (negb (_statusLastMeasurement s)); [reflexivity|].
    destruct (negb (decodeHumidity (_data s) =? Z.lnot 0)); [|reflexivity].
    destruct (average _ other _ _ _) as [m1 [[b1 i1] n1]].
    destruct (average _ samples _ _ _) as [m2 [[b2 i2] n2]]. exact Havg.
Qed.

(** ** What every reachable object satisfies *)

Lemma lor_one_table :
  forallb (fun y => Z.lor y 1 <? 256) (map Z.of_nat (seq 0 256)) = true.
Proof. vm_compute. reflexivity. Qed.

Lemma pushBit_byte bit x : is_uint8 (pushBit bit x).
Proof.
  unfold pushBit. pose proof (to_uint8_range (Z.shiftl x 1)) as Hy.
  destruct bit; [|exact Hy].
  unfold is_uint8 in *. split; [apply Z.lor_nonneg; lia|].
  pose proof lor_one_table as Htable. rewrite forallb_forall in Htable.
  apply Z.ltb_lt, Htable.
  rewrite <- (Z2Nat.id (to_uint8 (Z.shiftl x 1))) by lia.
  apply in_map, in_seq. lia.
Qed.

Lemma storeBit_payload i lowCycles highCycles d :
  (i < 40)%nat -> payload d -> payload (storeBit i lowCycles highCycles d).
Proof.
  intros Hi [Hlen Hall].
  rewrite storeBit_pushBit by (rewrite Hlen; apply nat_div8; exact Hi).
  split; [rewrite length_insert; exact Hlen|].
  apply Forall_insert; [exact Hall | apply pushBit_byte].
Qed.

Lemma decodeLoop_payload cs : forall n i d,
  (i + n <= 40)%nat -> payload d -> payload (snd (decodeLoop n i cs d)).
Proof.
  induction n as [|n IH]; intros i d Hi Hd; [exact Hd|].
  cbn [decodeLoop]. destruct (_ || _); [exact Hd|].
  apply IH; [lia|]. apply storeBit_payload; [lia | exact Hd].
Qed.

Lemma readBytes_payload s w : payload (_data (snd (fst (readBytes s w)))).
Proof.
  unfold readBytes.
  destruct (captureLoop DHT22_NUM_DATA_BITS s (noInterrupts w)) as [cs w1].
  pose proof (decodeLoop_payload cs DHT22_NUM_DATA_BITS 0 [0; 0; 0; 0; 0]) as Hdec.
  destruct (decodeLoop DHT22_NUM_DATA_BITS 0 cs [0; 0; 0; 0; 0]) as [ok data].
  cbn [fst snd set_capture _data] in *. apply Hdec.
  - change DHT22_NUM_DATA_BITS with 40%nat. lia.
  - split; [reflexivity|]. repeat constructor; unfold is_uint8; lia.
Qed.

Lemma attempt_payload s w :
  _statusLastMeasurement (fst (attempt s w)) = true ->
  payload (_data (fst (attempt s w))).
Proof.
  unfold attempt.
  destruct (generateStart (set_status true s) w) as [[|] w1];
    cbn [_statusLastMeasurement set_status]; [|cbn; discriminate].
  pose proof (readBytes_payload (set_status true s) w1) as Hp.
  destruct (readBytes (set_status true s) w1) as [[[|] s2] w2];
    cbn [fst snd] in *; [|cbn; discriminate].
  destruct (_statusLastMeasurement s2 && parityError (_data s2)); cbn; intros _; exact Hp.
Qed.

Lemma sameAverager_refl s : sameAverager s s.
Proof. repeat split. Qed.

Lemma sameAverager_trans s1 s2 s3 :
  sameAverager s1 s2 -> sameAverager s2 s3 -> sameAverager s1 s3.
Proof.
  unfold sameAverager. intros H12 H23.
  decompose [and] H12. decompose [and] H23. repeat split; congruence.
Qed.

Lemma attempt_sameAverager s w : sameAverager s (fst (attempt s w)).
Proof. destruct (attempt_outcome s w); repeat split. Qed.

Lemma retryLoop_sameAverager fuel : forall s w s' w',
  retryLoop fuel s w = Some (s', w') -> sameAverager s s'.
Proof.
  induction fuel as [|fuel IH]; intros s w s' w'; cbn [retryLoop];
    destruct (_numReadRetries s <=? _maxReadRetries s);
    try discriminate; try (intros [= <- <-]; apply sameAverager_refl).
  pose proof (attempt_sameAverager s w) as Hsame.
  destruct (attempt s w) as [s1 w1]. cbn [fst] in Hsame.
  destruct (_statusLastMeasurement s1).
  - intros [= <- <-]. exact Hsame.
  - intros Hloop. apply IH in Hloop.
    apply (sameAverager_trans _ _ _ Hsame).
    apply (sameAverager_trans _ (set_retries (to_uint8 (_numReadRetries s1 + 1)) s1));
      [repeat split | exact Hloop].
Qed.

Lemma retryLoop_payload fuel : forall s w s' w',
  _numReadRetries s <= _maxReadRetries s \/ _statusLastMeasurement s = false ->
  retryLoop fuel s w = Some (s', w') ->
  _statusLastMeasurement s' = true -> payload (_data s').
Proof.
  induction fuel as [|fuel IH]; intros s w s' w' Hpre.
  - cbn [retryLoop].
    destruct (Z.leb_spec (_numReadRetries s) (_maxReadRetries s)); [discriminate|].
    intros [= <- <-]. destruct Hpre; [lia | congruence].
  - destruct (Z.le_gt_cases (_numReadRetries s) (_maxReadRetries s)) as [Hle|Hgt].
    + rewrite retryLoop_step by exact Hle.
      pose proof (attempt_payload s w) as Hpay.
      destruct (attempt s w) as [s1 w1]. cbn [fst snd] in *.
      destruct (_statusLastMeasurement s1) eqn:Hst.
      * intros [= <- <-] _. auto.
      * apply IH. right. exact Hst.
    + rewrite retryLoop_exit by lia.
      intros [= <- <-]. destruct Hpre; [lia | congruence].
Qed.

(** X16: a call of [available] never touches the averaging state or the
    configuration: the sample buffers, their indices and counts, the sample
    count, the retry bound, the pin and the timeout are the same after it,
    whether it declined, succeeded or failed.  Only the value queries feed
    the buffers. *)
Theorem available_leaves_averager_alone :
  forall (fuel : nat) (s : DHT22) (w : World) ok s' w',
    available fuel s w = Some (ok, s', w') ->
    sameAverager s s'.
Proof.
  intros fuel s w ok s' w'. unfold available.
  destruct (to_uint32 (millis w - _lastMeasurementTimestamp s) <? 2000).
  - intros [= _ <- _]. apply sameAverager_refl.
  - unfold readSensorData.
    destruct (retryLoop fuel _ w) as [[s1 w1]|] eqn:Hloop; [|discriminate].
    intros [= _ <- _]. apply retryLoop_sameAverager in Hloop.
    apply (sameAverager_trans _ _ _ (sameAverager_trans _ _ _
             (ltac:(repeat split) : sameAverager s (set_retries 0 (set_timestamp (millis w) s)))
             Hloop)).
    repeat split.
Qed.

Lemma bufferOk_step numSamples samples index num p value :
  bufferOk numSamples samples index num ->
  bufferInSync numSamples index num ->
  bufferOk numSamples (<[p := value]> samples) (to_uint8 (index + 1))
    (if num <? numSamples then to_uint8 (num + 1) else num)
  /\ bufferInSync numSamples (to_uint8 (index + 1))
       (if num <? numSamples then to_uint8 (num + 1) else num).
Proof.
  intros (HN & Hlen & Hidx & Hnum) Hsync.
  pose proof (to_uint8_range (index + 1)) as Hr. unfold is_uint8 in Hr.
  unfold bufferOk, bufferInSync. rewrite length_insert.
  destruct (Z.ltb_spec num numSamples) as [Hlt|Hge].
  - rewrite (to_uint8_id (num + 1)) by (unfold is_uint8; lia).
    specialize (Hsync Hlt). subst index.
    repeat split; try lia. intros _. apply to_uint8_id. unfold is_uint8. lia.
  - repeat split; try lia.
Qed.

Lemma invariant_begin mem pin cpm maxReadRetries numSamples blockT blockH w :
  _statusLastMeasurement mem = false ->
  _temperatureSamples mem = None ->
  _humiditySamples mem = None ->
  (forall b, blockT = Some b -> length b = Z.to_nat (to_uint8 numSamples)) ->
  (forall b, blockH = Some b -> length b = Z.to_nat (to_uint8 numSamples)) ->
  invariant (fst (begin maxReadRetries numSamples blockT blockH
                    (construct mem pin cpm) w)).
Proof.
  intros Hst Ht Hh HbT HbH. unfold invariant, begin, construct. cbn.
  pose proof (to_uint8_range numSamples) as HN. unfold is_uint8 in HN.
  split; [apply to_uint8_range|]. split; [congruence|].
  destruct (Z.eqb_spec (to_uint8 numSamples) 0) as [Hz|Hnz]; cbn [negb].
  - rewrite Ht, Hh. split; intros samples; discriminate.
  - split; intros samples Hs;
      (split; [|intros _; reflexivity]);
      unfold bufferOk; repeat split; try lia; auto.
Qed.

Lemma invariant_readTemperature s :
  invariant s -> invariant (snd (readTemperature s)).
Proof.
  intros Hinv. pose proof Hinv as (Hmax & Hgood & HT & HH). unfold readTemperature.
  destruct (negb (_statusLastMeasurement s));
    [exact Hinv|].
  destruct (_temperatureSamples s) as [samples|] eqn:Hbuf;
    [|exact Hinv].
  destruct (negb (decodeTemperature (_data s) =? Z.lnot 0));
    [|exact Hinv].
  destruct (HT samples eq_refl) as [Hwf Hsync].
  unfold average. cbn [snd].
  split; [exact Hmax|]. split; [exact Hgood|]. split; [|exact HH].
  intros b [= <-]. cbn. apply bufferOk_step; assumption.
Qed.

Lemma invariant_readHumidity s :
  invariant s -> invariant (snd (readHumidity s)).
Proof.
  intros Hinv. pose proof Hinv as (Hmax & Hgood & HT & HH). unfold readHumidity.
  destruct (negb (_statusLastMeasurement s));
    [exact Hinv|].
  destruct (_humiditySamples s) as [samples|] eqn:Hbuf;
    [|exact Hinv].
  destruct (negb (decodeHumidity (_data s) =? Z.lnot 0));
    [|exact Hinv].
  destruct (HH samples eq_refl) as [Hwf Hsync].
  unfold average. cbn [snd].
  split; [exact Hmax|]. split; [exact Hgood|]. split; [exact HT|].
  intros b [= <-]. cbn. apply bufferOk_step; assumption.
Qed.

Lemma invariant_available fuel s w ok s' w' :
  invariant s -> available fuel s w = Some (ok, s', w') -> invariant s'.
Proof.
  intros Hinv. pose proof Hinv as (Hmax & Hgood & HT & HH). unfold available.
  destruct (to_uint32 (millis w - _lastMeasurementTimestamp s) <? 2000).
  - intros [= _ <- _]. exact Hinv.
  - unfold readSensorData.
    destruct (retryLoop fuel _ w) as [[s1 w1]|] eqn:Hloop; [|discriminate].
    intros [= _ <- _].
    pose proof (retryLoop_sameAverager _ _ _ _ _ Hloop) as Hsame.
    unfold sameAverager in Hsame. cbn in Hsame.
    destruct Hsame as (_ & _ & Hm & HN & HbT & HiT & HnT & HbH & HiH & HnH).
    assert (Hentered : _numReadRetries (set_retries 0 (set_timestamp (millis w) s))
                       <= _maxReadRetries (set_retries 0 (set_timestamp (millis w) s))
                       \/ _statusLastMeasurement
                            (set_retries 0 (set_timestamp (millis w) s)) = false)
      by (left; cbn; unfold is_uint8 in Hmax; lia).
    unfold invariant. cbn. rewrite Hm, HN, HbT, HiT, HnT, HbH, HiH, HnH.
    split; [exact Hmax|]. split; [|split; assumption].
    intros Hst. split.
    + exact (retryLoop_payload _ _ _ _ _ Hentered Hloop Hst).
    + exact (retryLoop_parity _ _ _ _ _ Hentered Hloop Hst).
Qed.

(** X17: every object a program can reach through the constructor, one
    [begin] and any calls of [available], [readTemperature] and
    [readHumidity] satisfies the invariant: a good status stands over five
    bytes with the right parity byte; each sample buffer has [_numSamples]
    entries with [0 < _numSamples < 256], an 8-bit index and a count of at
    most [_numSamples]; and the index equals the count until the buffer is
    full.  So the write of a value query is inside the buffer, the sum reads
    inside it, and the division is by a count of at least 1. *)
Theorem reachable_objects_keep_the_invariant :
  forall s : DHT22,
    reachable s ->
    invariant s
    /\ (forall samples,
          _temperatureSamples s = Some samples \/ _humiditySamples s = Some samples ->
          (Z.to_nat (_temperatureSampleIndex s mod _numSamples s) < length samples)%nat
          /\ (Z.to_nat (_humiditySampleIndex s mod _numSamples s) < length samples)%nat).
Proof.
  intros s Hreach.
  assert (Hinv : invariant s).
  { induction Hreach as [mem pin cpm maxR N bT bH w Hst Ht Hh HbT HbH
                        | fuel s w ok s' w' _ IH Hcall
                        | s _ IH | s _ IH].
    - apply invariant_begin; assumption.
    - exact (invariant_available _ _ _ _ _ _ IH Hcall).
    - apply invariant_readTemperature, IH.
    - apply invariant_readHumidity, IH. }
  split; [exact Hinv|].
  destruct Hinv as (_ & _ & HT & HH).
  intros samples [Hbuf|Hbuf].
  - destruct (HT samples Hbuf) as [(HN & Hlen & _) _]. rewrite Hlen.
    pose proof (Z.mod_pos_bound (_temperatureSampleIndex s) (_numSamples s) ltac:(lia)).
    pose proof (Z.mod_pos_bound (_humiditySampleIndex s) (_numSamples s) ltac:(lia)).
    lia.
  - destruct (HH samples Hbuf) as [(HN & Hlen & _) _]. rewrite Hlen.
    pose proof (Z.mod_pos_bound (_temperatureSampleIndex s) (_numSamples s) ltac:(lia)).
    pose proof (Z.mod_pos_bound (_humiditySampleIndex s) (_numSamples s) ltac:(lia)).
    lia.
Qed.

(** ** A whole frame on the line *)

Lemma heldFor_pulseOf n level : forall w from,
  from = polls w ->
  heldFor n level (line w) from = true ->
  pulseOf level n w.
Proof.
  induction n as [|n IH]; intros w from -> Hheld; cbn [heldFor] in Hheld.
  - split; [intros k Hk; lia|]. rewrite Nat.add_0_r.
    apply negb_true_iff, Bool.eqb_false_iff in Hheld. exact Hheld.
  - apply andb_true_iff in Hheld as [Hnow Hrest]. apply Bool.eqb_prop in Hnow.
    destruct (IH (advance 1 w) (S (polls w))) as [Hk Hend];
      [cbn; lia | exact Hrest|].
    cbn [line polls advance] in Hk, Hend. split.
    + intros [|k] Hlt; [rewrite Nat.add_0_r; exact Hnow|].
      replace (polls w + S k)%nat with (polls w + 1 + k)%nat by lia.
      apply Hk. lia.
    + replace (polls w + S n)%nat with (polls w + 1 + n)%nat by lia. exact Hend.
Qed.

Lemma measurePulseWidth_heldFor level s w n :
  0 <= _maxCycles s < 2 ^ 32 -> Z.of_nat n <= _maxCycles s ->
  heldFor n level (line w) (polls w) = true ->
  measurePulseWidth level s w = (Z.of_nat n, advance (S n) w).
Proof.
  intros Hmax Hn Hheld. unfold measurePulseWidth.
  rewrite (pulseLoop_measures level (_maxCycles s) n); try lia; [reflexivity|].
  exact (heldFor_pulseOf n level w (polls w) eq_refl Hheld).
Qed.

Lemma captureLoop_follows s : forall pairs ns w,
  0 <= _maxCycles s < 2 ^ 32 ->
  length ns = (2 * pairs)%nat ->
  Forall (fun n => Z.of_nat n <= _maxCycles s) ns ->
  follows ns LOW (line w) (polls w) = true ->
  fst (captureLoop pairs s w) = Z.of_nat <$> ns.
Proof.
  induction pairs as [|pairs IH]; intros ns w Hmax Hlen Hall Hline.
  - destruct ns; [reflexivity | discriminate].
  - destruct ns as [|lo [|hi rest]]; try (cbn in Hlen; lia).
    apply Forall_cons in Hall as [Hlo Hall]. apply Forall_cons in Hall as [Hhi Hall].
    cbn [follows negb] in Hline.
    apply andb_true_iff in Hline as [H1 Hline].
    apply andb_true_iff in Hline as [H2 Hline].
    cbn [captureLoop].
    rewrite (measurePulseWidth_heldFor LOW s w lo Hmax Hlo H1).
    rewrite (measurePulseWidth_heldFor HIGH s (advance (S lo) w) hi Hmax Hhi H2).
    specialize (IH rest (advance (S hi) (advance (S lo) w)) Hmax
                  ltac:(cbn in Hlen; lia) Hall Hline).
    destruct (captureLoop pairs s (advance (S hi) (advance (S lo) w))) as [cs w3].
    cbn [fst] in *. rewrite IH. reflexivity.
Qed.

Lemma attempt_reads_frame s w n0 n1 ns src :
  0 <= _maxCycles s < 2 ^ 32 ->
  (1 <= n0)%nat -> (1 <= n1)%nat -> length ns = 80%nat ->
  Forall (fun n => Z.of_nat n <= _maxCycles s) (n0 :: n1 :: ns) ->
  follows (n0 :: n1 :: ns) LOW (line w) (polls w) = true ->
  payload src -> encodes (Z.of_nat <$> ns) src -> parityError src = false ->
  _statusLastMeasurement (fst (attempt s w)) = true
  /\ _data (fst (attempt s w)) = src
  /\ cycles (fst (attempt s w)) = Z.of_nat <$> ns.
Proof.
  intros Hmax Hn0 Hn1 Hlen Hall Hline Hsrc Henc Hpar.
  apply Forall_cons in Hall as [H0 Hall]. apply Forall_cons in Hall as [H1 Hall].
  cbn [follows negb] in Hline.
  apply andb_true_iff in Hline as [Hl0 Hline].
  apply andb_true_iff in Hline as [Hl1 Hline].
  unfold attempt, generateStart.
  rewrite (measurePulseWidth_heldFor LOW (set_status true s) (startScript w) n0 Hmax H0 Hl0).
  destruct (Z.eqb_spec (Z.of_nat n0) 0); [lia|].
  rewrite (measurePulseWidth_heldFor HIGH (set_status true s)
             (advance (S n0) (startScript w)) n1 Hmax H1 Hl1).
  destruct (Z.eqb_spec (Z.of_nat n1) 0); [lia|].
  cbn [_statusLastMeasurement set_status]. unfold readBytes.
  pose proof (captureLoop_follows (set_status true s) DHT22_NUM_DATA_BITS ns
                (noInterrupts (advance (S n1) (advance (S n0) (startScript w))))
                Hmax Hlen Hall Hline) as Hcap.
  destruct (captureLoop DHT22_NUM_DATA_BITS (set_status true s) _) as [cs w3].
  cbn [fst] in Hcap. subst cs.
  rewrite <- (partial_start src Hsrc).
  change DHT22_NUM_DATA_BITS with 40%nat.
  rewrite (decodeLoop_partial _ src Hsrc Henc 40 0 eq_refl).
  cbn. rewrite Hpar. cbn. auto.
Qed.

(** X18: a well-formed frame is read: when the line, from the first read
    after the start pulse on, shows a LOW and a HIGH acknowledge pulse and
    then 40 LOW/HIGH pairs, all of widths between 1 and [_maxCycles] as the
    reader meets them, whose HIGH width exceeds the LOW width exactly for
    the 1 bits of five bytes with the right parity byte, then
    [readSensorData] succeeds at the first attempt: it returns true with
    those five bytes cached and a retry count of 0, and without sample
    buffers the value queries return their decoded temperature and
    humidity. *)
Theorem well_formed_frame_is_read :
  forall (fuel : nat) (s : DHT22) (w : World) (n0 n1 : nat) (ns : list nat)
         (src : list Z),
    0 <= _maxCycles s < 2 ^ 32 ->
    0 <= _maxReadRetries s ->
    (1 <= n0)%nat -> (1 <= n1)%nat -> length ns = 80%nat ->
    Forall (fun n => Z.of_nat n <= _maxCycles s) (n0 :: n1 :: ns) ->
    follows (n0 :: n1 :: ns) LOW (line w) (polls w) = true ->
    payload src ->
    encodes (Z.of_nat <$> ns) src ->
    src !!! 4%nat = (src !!! 0%nat + src !!! 1%nat + src !!! 2%nat + src !!! 3%nat) mod 256 ->
    exists s' w',
      readSensorData (S fuel) s w = Some (true, s', w')
      /\ _data s' = src
      /\ getNumRetriesLastConversion s' = 0
      /\ (_temperatureSamples s = None ->
          readTemperature s' = (decodeTemperature src, s'))
      /\ (_humiditySamples s = None ->
          readHumidity s' = (decodeHumidity src, s')).
Proof.
  intros fuel s w n0 n1 ns src Hmc Hmax Hn0 Hn1 Hlen Hall Hline Hsrc Henc Hsum.
  assert (Hpar : parityError src = false).
  { destruct (parityError src) eqn:E; [|reflexivity].
    apply parityError_iff in E. congruence. }
  set (s0 := set_retries 0 (set_timestamp (millis w) s)).
  destruct (attempt_reads_frame s0 w n0 n1 ns src Hmc Hn0 Hn1 Hlen Hall Hline
              Hsrc Henc Hpar) as (Hst & Hdata & _).
  pose proof (attempt_sameAverager s0 w) as Hsame.
  pose proof (attempt_fields s0 w) as (_ & Hm & Hr & _).
  unfold readSensorData. fold s0.
  rewrite retryLoop_step by (cbn; lia). rewrite Hst.
  destruct (attempt s0 w) as [s1 w1]. cbn [fst snd] in *.
  eexists _, _. split; [cbn; rewrite Hst; reflexivity|].
  unfold getNumRetriesLastConversion, readTemperature, readHumidity. cbn.
  destruct Hsame as (_ & _ & _ & _ & HbT & _ & _ & HbH & _).
  cbn in HbT, HbH, Hm, Hr. rewrite Hst, Hdata, Hr, Hm, HbT, HbH. cbn.
  split; [reflexivity|]. split; [lia|].
  split; intros ->; reflexivity.
Qed.

(** ** The 16-bit accumulator *)

Lemma to_int16_add_l a b : to_int16 (to_int16 a + b) = to_int16 (a + b).
Proof.
  unfold to_int16. f_equal.
  replace ((a + 32768) mod 65536 - 32768 + b + 32768)
    with ((a + 32768) mod 65536 + b) by lia.
  rewrite Zplus_mod_idemp_l. f_equal. lia.
Qed.

Lemma sumLoop_wraps (samples : list Z) : forall n i acc,
  (i + n <= length samples)%nat ->
  to_int16 (sumLoop n i samples acc)
  = to_int16 (acc + total (take n (drop i samples))).
Proof.
  induction n as [|n IH]; intros i acc Hlen.
  - rewrite take_0. cbn. rewrite Z.add_0_r. reflexivity.
  - assert (Hi : samples !! i = Some (samples !!! i))
      by (apply list_lookup_lookup_total_lt; lia).
    rewrite (drop_S _ _ _ Hi). cbn [sumLoop].
    rewrite IH by lia. rewrite to_int16_add_l.
    f_equal. change (take (S n) (samples !!! i :: drop (S i) samples))
      with (samples !!! i :: take n (drop (S i) samples)).
    unfold total. cbn [fold_right]. lia.
Qed.

Lemma sumLoop_fits (samples : list Z) : forall n i acc,
  is_int16 acc -> is_int16 (sumLoop n i samples acc).
Proof.
  induction n as [|n IH]; intros i acc Hacc; [exact Hacc|].
  cbn [sumLoop]. apply IH, to_int16_range.
Qed.

Lemma average_wraps numSamples samples index num value :
  bufferOk numSamples samples index num ->
  let samples' := <[Z.to_nat (index mod numSamples) := value]> samples in
  let num' := Z.min (num + 1) numSamples in
  fst (average numSamples samples index num value)
  = Z.quot (to_int16 (total (take (Z.to_nat num') samples'))) num'.
Proof.
  intros (HN & Hlen & Hidx & Hnum) samples' num'. unfold average. cbn [fst].
  assert (Hnum' : (if num <? numSamples then to_uint8 (num + 1) else num) = num').
  { subst num'. destruct (Z.ltb_spec num numSamples).
    - rewrite to_uint8_id by (unfold is_uint8; lia). lia.
    - lia. }
  rewrite Hnum'. fold samples'.
  assert (Hsum : sumLoop (Z.to_nat num') 0 samples' 0
                 = to_int16 (total (take (Z.to_nat num') samples'))).
  { rewrite <- (to_int16_id (sumLoop _ _ _ _))
      by (apply sumLoop_fits; unfold is_int16; lia).
    rewrite sumLoop_wraps by (subst samples' num'; rewrite length_insert; cbn; lia).
    rewrite drop_0, Z.add_0_l. reflexivity. }
  rewrite Hsum. apply to_int16_id, quot_fits; [apply to_int16_range | subst num'; lia].
Qed.

(** X19: what a value query returns in general, overflow included: with a
    sample buffer and a raw value other than -1, the result is the sum of
    the valid entries reduced to 16 bits (two's complement) and then divided
    by the count, truncated toward zero.  Once the sum leaves the range
    -32768..32767 the result is no longer the mean. *)
Theorem averaged_query_wraps_at_16_bits :
  forall s : DHT22,
    _statusLastMeasurement s = true ->
    (forall samples,
       _temperatureSamples s = Some samples ->
       let raw := decodeTemperature (_data s) in
       let samples' :=
         <[Z.to_nat (_temperatureSampleIndex s mod _numSamples s) := raw]> samples in
       let num' := Z.min (_numTemperatureSamples s + 1) (_numSamples s) in
       raw <> -1 ->
       bufferOk (_numSamples s) samples
         (_temperatureSampleIndex s) (_numTemperatureSamples s) ->
       fst (readTemperature s)
       = Z.quot (to_int16 (total (take (Z.to_nat num') samples'))) num')
    /\
    (forall samples,
       _humiditySamples s = Some samples ->
       let raw := decodeHumidity (_data s) in
       let samples' :=
         <[Z.to_nat (_humiditySampleIndex s mod _numSamples s) := raw]> samples in
       let num' := Z.min (_numHumiditySamples s + 1) (_numSamples s) in
       raw <> -1 ->
       bufferOk (_numSamples s) samples
         (_humiditySampleIndex s) (_numHumiditySamples s) ->
       fst (readHumidity s)
       = Z.quot (to_int16 (total (take (Z.to_nat num') samples'))) num').
Proof.
  intros s Hok. split; intros samples Hbuf raw samples' num' Hraw Hwf.
  - unfold readTemperature. rewrite Hok, Hbuf. cbn [negb]. fold raw.
    destruct (Z.eqb_spec raw (Z.lnot 0)) as [E|_]; [exfalso; apply Hraw; exact E|].
    cbn [negb]. pose proof (average_wraps _ _ _ _ raw Hwf) as Havg.
    destruct (average _ samples _ _ raw) as [mean [[b i] n]]. exact Havg.
  - unfold readHumidity. rewrite Hok, Hbuf. cbn [negb]. fold raw.
    destruct (Z.eqb_spec raw (Z.lnot 0)) as [E|_]; [exfalso; apply Hraw; exact E|].
    cbn [negb]. pose proof (average_wraps _ _ _ _ raw Hwf) as Havg.
    destruct (average _ samples _ _ raw) as [mean [[b i] n]]. exact Havg.
Qed.

(** ** The further properties at concrete inputs *)

Lemma sensor_maxCycles r n : _maxCycles (Scenario.sensor r n) = 16000.
Proof. reflexivity. Qed.

Lemma sensor_maxCycles_range r n : 0 <= _maxCycles (Scenario.sensor r n) < 2 ^ 32.
Proof. rewrite sensor_maxCycles. lia. Qed.

Lemma measurePulseWidth_measures_witness :
  pulseOf LOW 3 Cases.lowPulse
  /\ measurePulseWidth LOW (Scenario.sensor 2 0) Cases.lowPulse
     = (3, advance 4 Cases.lowPulse).
Proof.
  assert (Hpulse : pulseOf LOW 3 Cases.lowPulse)
    by (apply (heldFor_pulseOf 3 LOW Cases.lowPulse 0 eq_refl); reflexivity).
  split; [exact Hpulse|].
  refine (proj1 (measurePulseWidth_measures LOW (Scenario.sensor 2 0) Cases.lowPulse 3
                   (sensor_maxCycles_range 2 0)) _ Hpulse).
  rewrite sensor_maxCycles. lia.
Defined.

Lemma measurePulseWidth_is_bounded_witness :
  exists k : nat,
    (1 <= k <= Z.to_nat 16000 + 1)%nat
    /\ snd (measurePulseWidth HIGH (Scenario.sensor 2 0) Cases.lowPulse)
       = advance k Cases.lowPulse.
Proof.
  destruct (measurePulseWidth_is_bounded HIGH (Scenario.sensor 2 0) Cases.lowPulse
              (sensor_maxCycles_range 2 0)) as (k & Hk & Hw & _).
  exists k. split; [rewrite sensor_maxCycles in Hk; lia | exact Hw].
Defined.

Lemma attempt_is_bounded_witness :
  pinMode (snd (attempt (Scenario.sensor 2 0)
                  (Scenario.worldOf Scenario.goodFrame))) = INPUT_PULLUP.
Proof.
  exact (proj1 (proj2 (proj2 (proj2
    (attempt_is_bounded (Scenario.sensor 2 0) (Scenario.worldOf Scenario.goodFrame)
       (sensor_maxCycles_range 2 0)))))).
Defined.

Lemma available_returns_within_bound_witness :
  exists ok s' w',
    available 3 (Scenario.sensor 2 0) (Scenario.worldOf []) = Some (ok, s', w')
    /\ line w' = line (Scenario.worldOf []).
Proof.
  assert (Hmax : 0 <= _maxReadRetries (Scenario.sensor 2 0) < 255)
    by (vm_compute; split; [discriminate | reflexivity]).
  destruct (available_returns_within_bound (Scenario.sensor 2 0) (Scenario.worldOf [])
              (sensor_maxCycles_range 2 0) Hmax) as (ok & s' & w' & Hcall & Hline & _).
  exists ok, s', w'. split; [exact Hcall | exact Hline].
Defined.

Lemma interval_test_survives_clock_wrap_witness :
  millis (Scenario.worldAfter Scenario.firstCall)
  = to_uint32 (_lastMeasurementTimestamp (Scenario.stateOf Scenario.firstCall) + 30)
  /\ available 3 (Scenario.stateOf Scenario.firstCall)
       (Scenario.worldAfter Scenario.firstCall)
     = Some (false, Scenario.stateOf Scenario.firstCall,
             Scenario.worldAfter Scenario.firstCall).
Proof.
  assert (Hnow : millis (Scenario.worldAfter Scenario.firstCall)
                 = to_uint32 (_lastMeasurementTimestamp
                                (Scenario.stateOf Scenario.firstCall) + 30))
    by (vm_compute; reflexivity).
  split; [exact Hnow|].
  refine (proj1 (interval_test_survives_clock_wrap 3
                   (Scenario.stateOf Scenario.firstCall)
                   (Scenario.worldAfter Scenario.firstCall) 30 _ Hnow) _); lia.
Defined.

Lemma first_call_after_begin_witness :
  millis (Scenario.worldOf Scenario.goodFrame) < 2 ^ 32 - 2000
  /\ available 3 (Scenario.sensor 2 0) (Scenario.worldOf Scenario.goodFrame)
     = readSensorData 3 (Scenario.sensor 2 0) (Scenario.worldOf Scenario.goodFrame).
Proof.
  assert (Hm : millis (Scenario.worldOf Scenario.goodFrame) < 2 ^ 32 - 2000)
    by (vm_compute; reflexivity).
  split; [exact Hm|].
  exact (proj1 (first_call_after_begin 3 2 0
                  (Some (repeat 0 (Z.to_nat 0))) (Some (repeat 0 (Z.to_nat 0)))
                  (construct Scenario.zeroed 2 16) (Scenario.worldOf [])
                  (Scenario.worldOf Scenario.goodFrame)) Hm).
Defined.

Lemma retry_count_is_number_of_failures_witness :
  exists s',
    readSensorData 3 (Scenario.sensor 2 0) Cases.retried
    = Some (true, s',
            snd (attemptOfTurn 2
                   (set_retries 0
                      (set_timestamp (millis Cases.retried) (Scenario.sensor 2 0)))
                   Cases.retried))
    /\ getNumRetriesLastConversion s' = 2.
Proof.
  destruct (retry_count_is_number_of_failures (Scenario.sensor 2 0) Cases.retried 2 0)
    as (s' & Hread & Hcount & _).
  - vm_compute. split; discriminate.
  - intros [|[|j]] Hj; [vm_compute; reflexivity | vm_compute; reflexivity | lia].
  - vm_compute. reflexivity.
  - exists s'. split; [exact Hread | exact Hcount].
Defined.

Lemma payload_good : payload [2; 38; 128; 25; 193].
Proof. split; [reflexivity|]. repeat constructor; unfold is_uint8; lia. Qed.

Lemma payload_justBelowZero : payload Scenario.justBelowZero.
Proof. split; [reflexivity|]. repeat constructor; unfold is_uint8; lia. Qed.

Lemma humidity_is_wrapped_16_bit_witness :
  payload [2; 38; 128; 25; 193] /\ decodeHumidity [2; 38; 128; 25; 193] = 550.
Proof.
  split; [exact payload_good|].
  exact (proj1 (humidity_is_wrapped_16_bit _ payload_good)).
Defined.

Lemma invalid_value_collisions_witness :
  payload Scenario.justBelowZero /\ decodeTemperature Scenario.justBelowZero = invalid.
Proof.
  split; [exact payload_justBelowZero|].
  apply (proj1 (invalid_value_collisions _ payload_justBelowZero)).
  split; reflexivity.
Defined.

Lemma decoding_is_scale_invariant_witness :
  length (cycles (Scenario.stateOf Scenario.firstCall)) = 80%nat
  /\ decodeLoop DHT22_NUM_DATA_BITS 0
       (Z.mul 2 <$> cycles (Scenario.stateOf Scenario.firstCall)) [0; 0; 0; 0; 0]
     = decodeLoop DHT22_NUM_DATA_BITS 0
         (cycles (Scenario.stateOf Scenario.firstCall)) [0; 0; 0; 0; 0].
Proof.
  assert (Hlen : length (cycles (Scenario.stateOf Scenario.firstCall)) = 80%nat)
    by (vm_compute; reflexivity).
  split; [exact Hlen|].
  apply (decoding_is_scale_invariant 2 _ ltac:(lia) Hlen).
Defined.

Lemma constant_window_averages_to_raw_witness :
  _temperatureSamples (Scenario.stateOf Cases.sameTwice) = Some [100; 0; 0]
  /\ _numTemperatureSamples (Scenario.stateOf Cases.sameTwice) = 1
  /\ fst (readTemperature (Scenario.stateOf Cases.sameTwice)) = 100.
Proof.
  set (s := Scenario.stateOf Cases.sameTwice).
  assert (Hok : _statusLastMeasurement s = true) by (vm_compute; reflexivity).
  assert (Hbuf : _temperatureSamples s = Some [100; 0; 0]) by (vm_compute; reflexivity).
  split; [exact Hbuf|]. split; [vm_compute; reflexivity|].
  pose proof (proj1 (constant_window_averages_to_raw s Hok) [100; 0; 0] Hbuf) as Hmean.
  cbv zeta in Hmean.
  assert (Hraw : decodeTemperature (_data s) = 100) by (vm_compute; reflexivity).
  rewrite <- Hraw. apply Hmean.
  - vm_compute. repeat split; (reflexivity || discriminate).
  - intros [|[|i]] Hi; [vm_compute; reflexivity | vm_compute; reflexivity|].
    exfalso. revert Hi. vm_compute. lia.
  - vm_compute. split; discriminate.
Defined.

Lemma single_sample_average_is_raw_witness :
  _numSamples (Scenario.stateOf Cases.oneSample) = 1
  /\ fst (readTemperature (Scenario.stateOf Cases.oneSample)) = -25.
Proof.
  set (s := Scenario.stateOf Cases.oneSample).
  assert (Hok : _statusLastMeasurement s = true) by (vm_compute; reflexivity).
  assert (HN : _numSamples s = 1) by (vm_compute; reflexivity).
  assert (Hbuf : _temperatureSamples s = Some [0]) by (vm_compute; reflexivity).
  split; [exact HN|].
  rewrite (proj1 (single_sample_average_is_raw s Hok HN) [0] Hbuf).
  - vm_compute. reflexivity.
  - vm_compute. repeat split; (reflexivity || discriminate).
Defined.

Lemma mean_ignores_unwritten_entries_witness :
  _temperatureSamples
    (Scenario.stateOf (Scenario.secondRead 3 Scenario.warm Scenario.warmer))
  = Some [100; 0; 0]
  /\ fst (readTemperature
            (set_temperatureAverage [100; 7; 9] 1 1
               (Scenario.stateOf (Scenario.secondRead 3 Scenario.warm Scenario.warmer))))
     = fst (readTemperature
              (Scenario.stateOf (Scenario.secondRead 3 Scenario.warm Scenario.warmer))).
Proof.
  set (s := Scenario.stateOf (Scenario.secondRead 3 Scenario.warm Scenario.warmer)).
  assert (Hbuf : _temperatureSamples s = Some [100; 0; 0]) by (vm_compute; reflexivity).
  split; [exact Hbuf|].
  apply (proj1 (mean_ignores_unwritten_entries s [100; 7; 9]) [100; 0; 0] Hbuf).
  - vm_compute. repeat split; (reflexivity || discriminate).
  - intros _. vm_compute. reflexivity.
  - reflexivity.
  - vm_compute. reflexivity.
Defined.

Lemma available_leaves_averager_alone_witness :
  available 3 (Scenario.sensor 2 3) (Scenario.worldOf Scenario.goodFrame)
  = Some (true,
          Scenario.stateOf
            (available 3 (Scenario.sensor 2 3) (Scenario.worldOf Scenario.goodFrame)),
          Scenario.worldAfter
            (available 3 (Scenario.sensor 2 3) (Scenario.worldOf Scenario.goodFrame)))
  /\ sameAverager (Scenario.sensor 2 3)
       (Scenario.stateOf
          (available 3 (Scenario.sensor 2 3) (Scenario.worldOf Scenario.goodFrame))).
Proof.
  assert (Hcall : available 3 (Scenario.sensor 2 3) (Scenario.worldOf Scenario.goodFrame)
                  = Some (true,
                      Scenario.stateOf
                        (available 3 (Scenario.sensor 2 3)
                           (Scenario.worldOf Scenario.goodFrame)),
                      Scenario.worldAfter
                        (available 3 (Scenario.sensor 2 3)
                           (Scenario.worldOf Scenario.goodFrame))))
    by (vm_compute; reflexivity).
  split; [exact Hcall|].
  exact (available_leaves_averager_alone _ _ _ _ _ _ Hcall).
Defined.

Lemma sensor_reachable : reachable (Scenario.sensor 2 3).
Proof.
  unfold Scenario.sensor. apply reach_begin; try reflexivity;
    intros b [= <-]; reflexivity.
Qed.

Lemma reachable_objects_keep_the_invariant_witness :
  reachable (Scenario.sensor 2 3) /\ invariant (Scenario.sensor 2 3).
Proof.
  split; [exact sensor_reachable|].
  exact (proj1 (reachable_objects_keep_the_invariant _ sensor_reachable)).
Defined.

Lemma follows_goodFrame :
  follows (3%nat :: 2%nat :: Cases.widthsOf [2; 38; 128; 25; 193]) LOW
    (line (Scenario.worldOf Scenario.goodFrame))
    (polls (Scenario.worldOf Scenario.goodFrame)) = true.
Proof. vm_compute. reflexivity. Qed.

Lemma widths_goodFrame :
  Forall (fun n => Z.of_nat n <= _maxCycles (Scenario.sensor 2 0))
    (3%nat :: 2%nat :: Cases.widthsOf [2; 38; 128; 25; 193]).
Proof.
  apply Forall_forall. intros n Hn. rewrite sensor_maxCycles.
  assert (Hle : (n <= 3)%nat); [|lia].
  revert n Hn. apply Forall_forall.
  apply (bool_decide_eq_true_1 _). vm_compute. reflexivity.
Qed.

Lemma well_formed_frame_is_read_witness :
  exists s' w',
    readSensorData 1 (Scenario.sensor 2 0) (Scenario.worldOf Scenario.goodFrame)
    = Some (true, s', w')
    /\ _data s' = [2; 38; 128; 25; 193]
    /\ readTemperature s' = (decodeTemperature [2; 38; 128; 25; 193], s').
Proof.
  destruct (well_formed_frame_is_read 0 (Scenario.sensor 2 0)
              (Scenario.worldOf Scenario.goodFrame) 3 2
              (Cases.widthsOf [2; 38; 128; 25; 193]) [2; 38; 128; 25; 193])
    as (s' & w' & Hread & Hdata & _ & Ht & _).
  - exact (sensor_maxCycles_range 2 0).
  - vm_compute. discriminate.
  - lia.
  - lia.
  - reflexivity.
  - exact widths_goodFrame.
  - exact follows_goodFrame.
  - exact payload_good.
  - apply encodesb_sound. vm_compute. reflexivity.
  - reflexivity.
  - exists s', w'. split; [exact Hread|]. split; [exact Hdata|].
    apply Ht. reflexivity.
Defined.


Lemma averaged_query_wraps_at_16_bits_witness :
  _temperatureSamples (Scenario.stateOf Cases.hotTwice) = Some [20000; 0]
  /\ decodeTemperature (_data (Scenario.stateOf Cases.hotTwice)) = 20000
  /\ fst (readTemperature (Scenario.stateOf Cases.hotTwice)) = -12768.
Proof.
  set (s := Scenario.stateOf Cases.hotTwice).
  assert (Hok : _statusLastMeasurement s = true) by (vm_compute; reflexivity).
  assert (Hbuf : _temperatureSamples s = Some [20000; 0]) by (vm_compute; reflexivity).
  split; [exact Hbuf|]. split; [vm_compute; reflexivity|].
  pose proof (proj1 (averaged_query_wraps_at_16_bits s Hok) [20000; 0] Hbuf) as Hwrap.
  cbv zeta in Hwrap. rewrite Hwrap.
  - vm_compute. reflexivity.
  - vm_compute. discriminate.
  - vm_compute. repeat split; (reflexivity || discriminate).
Defined.
